(** * webclaw CLI: the initialisation state machine and the script forwarder

    A shallow embedding of the command-line entry point of the webclaw
    repository (the [#!/usr/bin/env node] script: [runCommand],
    [detectPackageManager], [detectProjectRoot], [runProjectScript],
    [ensureDir], [copyDir], [isDirEmpty], [cloneRepo], [initProject],
    [doctor], [main]).

    The script is synchronous and single threaded; its only state is the
    file system, the two output streams and the child processes it has
    started.  It is embedded as explicit state passing over a [World], with
    [process.exit] and thrown errors as outcomes of a small monad.

    Paths are POSIX paths, held as the list of their components below the
    root ([/a/b] is [["a"; "b"]]); symbolic links are not modelled. *)

From Stdlib Require Import String Ascii List Bool ZArith Lia.
Import ListNotations.
Open Scope string_scope.
Open Scope list_scope.

(* ================================================================== *)
(** ** Strings and command-line tokens *)

Definition nl : string := String (ascii_of_nat 10) EmptyString.

(** [arg.startsWith('-')] *)
Definition startsWithDash (arg : string) : bool := String.prefix "-" arg.

(** [new Set(...)] is only ever queried with [has]. *)
Definition has (opt : string) (options : list string) : bool :=
  existsb (String.eqb opt) options.

(* ================================================================== *)
(** ** Paths *)

Definition path := list string.

Fixpoint path_eqb (p q : path) : bool :=
  match p, q with
  | [], [] => true
  | a :: p', b :: q' => String.eqb a b && path_eqb p' q'
  | _, _ => false
  end.

(** [path.join(dir, name)] for a single entry name. *)
Definition join (dir : path) (name : string) : path := dir ++ [name].

Fixpoint concat_sep (sep : string) (l : list string) : string :=
  match l with
  | [] => ""
  | [x] => x
  | x :: rest => (x ++ sep ++ concat_sep sep rest)%string
  end.

(** The string a path is printed as. *)
Definition path_str (p : path) : string := ("/" ++ concat_sep "/" p)%string.

(** [s.split('/')] *)
Fixpoint split_slash (s : string) : list string :=
  match s with
  | EmptyString => [""]
  | String c rest =>
      if Ascii.eqb c "/"%char then "" :: split_slash rest
      else match split_slash rest with
           | [] => [String c EmptyString]
           | seg :: segs => String c seg :: segs
           end
  end.

(** One step of path normalisation: empty and [.] segments vanish, [..]
    drops the last component (and stays at the root). *)
Definition norm_step (acc : path) (seg : string) : path :=
  if String.eqb seg "" || String.eqb seg "." then acc
  else if String.eqb seg ".." then removelast acc
  else acc ++ [seg].

Definition normalize_onto (base : path) (segs : list string) : path :=
  fold_left norm_step segs base.

(** [path.resolve(cwd, raw)]: an absolute [raw] replaces [cwd], a relative
    one is appended; the whole is normalised. *)
Definition path_resolve (cwd : path) (raw : string) : path :=
  if String.prefix "/" raw
  then normalize_onto [] (split_slash raw)
  else normalize_onto [] (cwd ++ split_slash raw).

(** A component list as [process.cwd()] reports it: no empty, [.] or [..]
    component. *)
Definition normal_seg (s : string) : bool :=
  negb (String.eqb s "" || String.eqb s "." || String.eqb s "..").

Definition normal_path (p : path) : bool := forallb normal_seg p.

Fixpoint strip_common (p q : path) : path * path :=
  match p, q with
  | a :: p', b :: q' => if String.eqb a b then strip_common p' q' else (p, q)
  | _, _ => (p, q)
  end.

(** [path.relative(from, to)] on normalised absolute paths. *)
Definition path_relative (from to : path) : string :=
  let '(f, t) := strip_common from to in
  concat_sep "/" (map (fun _ => "..") f ++ t).

(** The paths neither of which is a prefix of the other. *)
Fixpoint divergeb (p q : path) : bool :=
  match p, q with
  | a :: p', b :: q' => if String.eqb a b then divergeb p' q' else true
  | _, _ => false
  end.

(* ================================================================== *)
(** ** The file system *)

#[warnings="-register-all"]
Inductive node : Type :=
| File (content : string)
| Dir (entries : list (string * node)).

Module Fs.

Fixpoint lookup_entry (n : string) (es : list (string * node)) : option node :=
  match es with
  | [] => None
  | (m, c) :: rest => if String.eqb m n then Some c else lookup_entry n rest
  end.

(** Replaces the entry in place, or appends a new one. *)
Fixpoint set_entry (n : string) (v : node) (es : list (string * node))
  : list (string * node) :=
  match es with
  | [] => [(n, v)]
  | (m, c) :: rest =>
      if String.eqb m n then (m, v) :: rest else (m, c) :: set_entry n v rest
  end.

Definition remove_entry (n : string) (es : list (string * node))
  : list (string * node) :=
  filter (fun e => negb (String.eqb (fst e) n)) es.

Fixpoint lookup (p : path) (t : node) : option node :=
  match p with
  | [] => Some t
  | n :: q =>
      match t with
      | Dir es =>
          match lookup_entry n es with
          | Some c => lookup q c
          | None => None
          end
      | File _ => None
      end
  end.

(** Writes [v] at [p]; the parent of [p] must be an existing directory. *)
Fixpoint put (p : path) (v : node) (t : node) : option node :=
  match p with
  | [] => Some v
  | n :: q =>
      match t with
      | File _ => None
      | Dir es =>
          match lookup_entry n es with
          | Some c =>
              match put q v c with
              | Some c' => Some (Dir (set_entry n c' es))
              | None => None
              end
          | None =>
              match q with
              | [] => Some (Dir (set_entry n v es))
              | _ :: _ => None
              end
          end
      end
  end.

(** [mkdir -p]: creates the missing directories along [p]; fails when a
    component is a regular file. *)
Fixpoint mkdirp (p : path) (t : node) {struct p} : option node :=
  match t with
  | File _ => None
  | Dir es =>
      match p with
      | [] => Some t
      | n :: q =>
          match mkdirp q (match lookup_entry n es with
                          | Some c => c
                          | None => Dir []
                          end) with
          | Some c' => Some (Dir (set_entry n c' es))
          | None => None
          end
      end
  end.

(** [rm -rf]: removes the entry at [p] with all below it; a missing path
    is no error.  It is never called on the root. *)
Fixpoint rm (p : path) (t : node) : node :=
  match p with
  | [] => t
  | n :: q =>
      match t with
      | File _ => t
      | Dir es =>
          match q with
          | [] => Dir (remove_entry n es)
          | _ :: _ =>
              match lookup_entry n es with
              | Some c => Dir (set_entry n (rm q c) es)
              | None => t
              end
          end
      end
  end.

Definition existsb (p : path) (t : node) : bool :=
  match lookup p t with Some _ => true | None => false end.

(** The path runs into a regular file before its end. *)
Fixpoint through_file (p : path) (t : node) : bool :=
  match p with
  | [] => false
  | n :: q =>
      match t with
      | File _ => true
      | Dir es =>
          match lookup_entry n es with
          | Some c => through_file q c
          | None => false
          end
      end
  end.

Definition is_dir (v : node) : bool :=
  match v with Dir _ => true | File _ => false end.

End Fs.

(* ================================================================== *)
(** ** The world, and the monad the script runs in *)

Inductive errno : Type :=
| ENOENT | ENOTDIR | EISDIR | EEXIST
| SpawnError (msg : string).

(** One call of [spawnSync]. *)
Record SpawnCall : Type := mkCall {
  call_cmd : string;
  call_args : list string;
  call_cwd : path
}.

(** What [spawnSync] hands back: [result.error] and [result.status]
    ([None] is JavaScript's [null]/[undefined]). *)
Record SpawnResult : Type := mkResult {
  res_error : option string;
  res_status : option Z
}.

(** The error for a path that cannot be reached: [ENOTDIR] when it runs
    into a regular file, [ENOENT] when a component is missing. *)
Definition unreachable (p : path) (t : node) : errno :=
  if Fs.through_file p t then ENOTDIR else ENOENT.

Record World : Type := mkWorld {
  fs : node;
  stdout : list string;
  stderr : list string;
  spawned : list SpawnCall
}.

Definition set_fs (t : node) (w : World) : World :=
  mkWorld t (stdout w) (stderr w) (spawned w).

Inductive outcome (A : Type) : Type :=
| Ret (a : A)
| Exit (code : Z)
| Throw (e : errno)
| OutOfFuel.

Arguments Ret {A} a.
Arguments Exit {A} code.
Arguments Throw {A} e.
Arguments OutOfFuel {A}.

Definition M (A : Type) : Type := World -> outcome A * World.

Definition ret {A} (a : A) : M A := fun w => (Ret a, w).

Definition bind {A B} (m : M A) (k : A -> M B) : M B :=
  fun w =>
    match m w with
    | (Ret a, w') => k a w'
    | (Exit c, w') => (Exit c, w')
    | (Throw e, w') => (Throw e, w')
    | (OutOfFuel, w') => (OutOfFuel, w')
    end.

Notation "x <- m ;; k" := (bind m (fun x => k))
  (at level 61, m at next level, right associativity).
Notation "m ;;; k" := (bind m (fun _ => k))
  (at level 61, right associativity).

(** [process.exit(code)] *)
Definition exit {A} (code : Z) : M A := fun w => (Exit code, w).

Definition throw {A} (e : errno) : M A := fun w => (Throw e, w).

(** [process.stdout.write(s)] and [process.stderr.write(s)] *)
Definition put_stdout (s : string) (w : World) : World :=
  mkWorld (fs w) (stdout w ++ [s]) (stderr w) (spawned w).

Definition put_stderr (s : string) (w : World) : World :=
  mkWorld (fs w) (stdout w) (stderr w ++ [s]) (spawned w).

Definition write_stdout (s : string) : M unit :=
  fun w => (Ret tt, put_stdout s w).

Definition write_stderr (s : string) : M unit :=
  fun w => (Ret tt, put_stderr s w).

(** [for (const x of xs) body(x)] *)
Fixpoint for_each {A} (xs : list A) (body : A -> M unit) : M unit :=
  match xs with
  | [] => ret tt
  | x :: rest => body x ;;; for_each rest body
  end.

(** The exit status of the process for an outcome of [main]: an uncaught
    error ends the process with status 1. *)
Definition exit_status {A} (o : outcome A) : option Z :=
  match o with
  | Ret _ => Some 0%Z
  | Exit c => Some c
  | Throw _ => Some 1%Z
  | OutOfFuel => None
  end.

(* ================================================================== *)
(** ** The script *)

(** What the process is started with and cannot change. *)
Record Env : Type := mkEnv {
  cwd : path;          (* process.cwd() *)
  tmpdir : path;       (* os.tmpdir() *)
  nodeMajor : Z        (* Number(process.versions.node.split('.')[0] || 0) *)
}.

Definition REPO_URL : string := "https://github.com/ibelick/webclaw".

Section Script.

(** The outside world: what a child process does to the file system and
    how it ends, and the random suffix [mkdtempSync] picks. *)
Variable spawn : SpawnCall -> node -> SpawnResult * node.
Variable mkdtemp_suffix : node -> string.
Variable env : Env.

(** [spawnSync(command, args, {cwd, ...})] *)
Definition spawnSync (command : string) (args : list string) (dir : path)
  : M SpawnResult :=
  fun w =>
    let c := mkCall command args dir in
    let '(r, t) := spawn c (fs w) in
    (Ret r, mkWorld t (stdout w) (stderr w) (spawned w ++ [c])).

Definition existsSync (p : path) : M bool :=
  fun w => (Ret (Fs.existsb p (fs w)), w).

(** [fs.mkdirSync(p, { recursive: true })] *)
Definition mkdirSync (p : path) : M unit :=
  fun w =>
    match Fs.mkdirp p (fs w) with
    | Some t => (Ret tt, set_fs t w)
    | None => (Throw ENOTDIR, w)
    end.

(** [fs.readdirSync(p, { withFileTypes: true })]: the names with
    [isDirectory()]. *)
Definition readdirTypes (p : path) : M (list (string * bool)) :=
  fun w =>
    match Fs.lookup p (fs w) with
    | Some (Dir es) => (Ret (map (fun e => (fst e, Fs.is_dir (snd e))) es), w)
    | Some (File _) => (Throw ENOTDIR, w)
    | None => (Throw ENOENT, w)
    end.

(** [fs.readdirSync(p)] *)
Definition readdirSync (p : path) : M (list string) :=
  fun w =>
    match Fs.lookup p (fs w) with
    | Some (Dir es) => (Ret (map fst es), w)
    | Some (File _) => (Throw ENOTDIR, w)
    | None => (Throw ENOENT, w)
    end.

(** [fs.copyFileSync(src, dst)]: a source or a destination that cannot be
    reached fails with [ENOTDIR] or [ENOENT], a directory in either place
    with [EISDIR]. *)
Definition copyFileSync (src dst : path) : M unit :=
  fun w =>
    match Fs.lookup src (fs w) with
    | Some (File c) =>
        match Fs.lookup dst (fs w) with
        | Some (Dir _) => (Throw EISDIR, w)
        | _ =>
            match Fs.put dst (File c) (fs w) with
            | Some t => (Ret tt, set_fs t w)
            | None => (Throw (unreachable dst (fs w)), w)
            end
        end
    | Some (Dir _) => (Throw EISDIR, w)
    | None => (Throw (unreachable src (fs w)), w)
    end.

(** [fs.rmSync(p, { recursive: true, force: true })] *)
Definition rmSync (p : path) : M unit :=
  fun w => (Ret tt, set_fs (Fs.rm p (fs w)) w).

(** [fs.mkdtempSync(path.join(dir, prefix))]: a new directory whose name
    is the prefix and a suffix of the runtime's choice.  A name already
    taken is reported as an error here. *)
Definition mkdtempSync (dir : path) (prefix : string) : M path :=
  fun w =>
    let p := join dir (prefix ++ mkdtemp_suffix (fs w))%string in
    match Fs.lookup dir (fs w), Fs.lookup p (fs w) with
    | Some (Dir _), None =>
        match Fs.put p (Dir []) (fs w) with
        | Some t => (Ret p, set_fs t w)
        | None => (Throw ENOENT, w)
        end
    | Some (Dir _), Some _ => (Throw EEXIST, w)
    | Some (File _), _ => (Throw ENOTDIR, w)
    | None, _ => (Throw ENOENT, w)
    end.

Definition printHelp : M unit :=
  write_stdout ("webclaw CLI" ++ nl ++ nl) ;;;
  write_stdout ("Usage:" ++ nl) ;;;
  write_stdout ("  webclaw                 Initialize in current directory" ++ nl) ;;;
  write_stdout ("  webclaw init [dir]      Initialize a new project" ++ nl) ;;;
  write_stdout ("  webclaw dev             Run development server" ++ nl) ;;;
  write_stdout ("  webclaw build           Build project" ++ nl) ;;;
  write_stdout ("  webclaw preview         Preview production build" ++ nl) ;;;
  write_stdout ("  webclaw test            Run tests" ++ nl) ;;;
  write_stdout ("  webclaw lint            Run lint" ++ nl) ;;;
  write_stdout ("  webclaw doctor          Validate local setup" ++ nl) ;;;
  write_stdout (nl ++ "Options:" ++ nl) ;;;
  write_stdout ("  --force                 Allow init in non-empty directory" ++ nl) ;;;
  write_stdout ("  -h, --help              Show help" ++ nl).

Definition runCommand (command : string) (args : list string) (dir : path)
  : M unit :=
  result <- spawnSync command args dir ;;
  match res_error result with
  | Some e => throw (SpawnError e)
  | None =>
      match res_status result with
      | Some status => if negb (Z.eqb status 0) then exit status else ret tt
      | None => ret tt
      end
  end.

Inductive PackageManager : Type := pnpm | yarn | npm.

Definition pm_name (pm : PackageManager) : string :=
  match pm with pnpm => "pnpm" | yarn => "yarn" | npm => "npm" end.

Definition detectPackageManager (dir : path) : M PackageManager :=
  hasPnpm <- existsSync (join dir "pnpm-lock.yaml") ;;
  if hasPnpm then ret pnpm else
  hasYarn <- existsSync (join dir "yarn.lock") ;;
  if hasYarn then ret yarn else
  ret npm.

Inductive Mode : Type := monorepo | single.

Record Detected : Type := mkDetected { mode : Mode; appDir : path }.

Definition detectProjectRoot (dir : path) : M (option Detected) :=
  let appDir := dir ++ ["apps"; "webclaw"] in
  let appPackage := join appDir "package.json" in
  hasApp <- existsSync appPackage ;;
  if hasApp then ret (Some (mkDetected monorepo appDir)) else
  let packagePath := join dir "package.json" in
  hasPackage <- existsSync packagePath ;;
  if hasPackage then ret (Some (mkDetected single dir)) else
  ret None.

Definition runProjectScript (scriptName : string) : M unit :=
  detected <- detectProjectRoot (cwd env) ;;
  match detected with
  | None =>
      write_stderr
        ("No WebClaw project found in this directory. Run `webclaw init` first."
           ++ nl) ;;;
      exit 1%Z
  | Some detected =>
      packageManager <- detectPackageManager (cwd env) ;;
      match mode detected with
      | monorepo =>
          match packageManager with
          | pnpm => runCommand "pnpm" ["-C"; "apps/webclaw"; scriptName] (cwd env)
          | _ => runCommand (pm_name packageManager) ["run"; scriptName]
                   (appDir detected)
          end
      | single =>
          runCommand (pm_name packageManager) ["run"; scriptName]
            (appDir detected)
      end
  end.

Definition ensureDir (targetDir : path) : M unit :=
  present <- existsSync targetDir ;;
  if negb present then mkdirSync targetDir else ret tt.

(** The names [copyDir] skips. *)
Definition excluded (name : string) : bool :=
  String.eqb name "node_modules" || String.eqb name ".git"
  || String.eqb name ".env.local" || String.eqb name ".openclaw"
  || String.eqb name ".webclaw" || String.eqb name ".tanstack"
  || String.eqb name ".DS_Store".

(** [copyDir] recurses on what it reads from the file system while it
    writes to it, so the recursion is bounded by fuel. *)
Fixpoint copyDir (fuel : nat) (sourceDir targetDir : path) : M unit :=
  match fuel with
  | O => fun w => (OutOfFuel, w)
  | S fuel' =>
      ensureDir targetDir ;;;
      entries <- readdirTypes sourceDir ;;
      for_each entries (fun entry =>
        if excluded (fst entry) then ret tt else
        let sourcePath := join sourceDir (fst entry) in
        let targetPath := join targetDir (fst entry) in
        if snd entry
        then copyDir fuel' sourcePath targetPath
        else copyFileSync sourcePath targetPath)
  end.

(** The filter of [isDirEmpty]:
    [file !== '.DS_Store' && file !== '.git']. *)
Definition counted (file : string) : bool :=
  negb (String.eqb file ".DS_Store") && negb (String.eqb file ".git").

Definition isDirEmpty (targetDir : path) : M bool :=
  present <- existsSync targetDir ;;
  if negb present then ret true else
  names <- readdirSync targetDir ;;
  let files := filter counted names in
  ret (Nat.eqb (length files) 0).

Definition cloneRepo (targetDir : path) : M unit :=
  runCommand "git" ["clone"; "--depth"; "1"; REPO_URL; path_str targetDir]
    (cwd env).

(** [b && m()], where [m] is only run when [b] holds. *)
Definition andM (b : bool) (m : M bool) : M bool :=
  if b then m else ret false.

Definition notM (m : M bool) : M bool := b <- m ;; ret (negb b).

(** [if (cond) { body }] *)
Definition when (cond : M bool) (body : M unit) : M unit :=
  b <- cond ;; if b then body else ret tt.

(** The steps of [initProject], in the order of its body. *)

(** [if (!force && !isDirEmpty(targetDir)) { ... process.exit(1) }] *)
Definition refuseNonEmpty (targetDir : path) (force : bool) : M unit :=
  when (andM (negb force) (notM (isDirEmpty targetDir)))
    (write_stderr
       ("Target directory is not empty. Use --force to continue: "
          ++ path_str targetDir ++ nl) ;;;
     exit 1%Z).

(** [if (force && !isDirEmpty(targetDir) && isCurrentDir)
     { ... process.exit(1) }] *)
Definition refuseCurrentDir (targetDir : path) (force isCurrentDir : bool)
  : M unit :=
  when (andM force (notEmpty <- notM (isDirEmpty targetDir) ;;
                    ret (notEmpty && isCurrentDir)))
    (write_stderr
       ("Refusing to overwrite current directory. Use an empty directory for init."
          ++ nl) ;;;
     exit 1%Z).

(** [if (force && !isDirEmpty(targetDir) && !isCurrentDir)
     { for (const entry of fs.readdirSync(targetDir)) ... }] *)
Definition clearTarget (targetDir : path) (force isCurrentDir : bool)
  : M unit :=
  when (andM force (notEmpty <- notM (isDirEmpty targetDir) ;;
                    ret (notEmpty && negb isCurrentDir)))
    (names <- readdirSync targetDir ;;
     for_each names (fun entry =>
       if String.eqb entry ".git" then ret tt
       else rmSync (join targetDir entry))).

(** [if (!fs.existsSync(path.join(targetDir, '.git')) &&
         isDirEmpty(targetDir)) { ... }] *)
Definition materialize (fuel : nat) (targetDir : path) (isCurrentDir : bool)
  : M unit :=
  when (hasGit <- existsSync (join targetDir ".git") ;;
        andM (negb hasGit) (isDirEmpty targetDir))
    (if negb isCurrentDir
     then cloneRepo targetDir
     else
       tempRoot <- mkdtempSync (tmpdir env) "webclaw-" ;;
       let tempCloneDir := join tempRoot "repo" in
       cloneRepo tempCloneDir ;;;
       copyDir fuel tempCloneDir targetDir ;;;
       rmSync tempRoot).

Definition report (targetDir : path) : M unit :=
  write_stdout (nl ++ "WebClaw project created at " ++ path_str targetDir
                   ++ nl ++ nl) ;;;
  write_stdout ("Next steps:" ++ nl) ;;;
  write_stdout
    ("  cd " ++ (let r := path_relative (cwd env) targetDir in
                 if String.eqb r "" then "." else r) ++ nl) ;;;
  write_stdout ("  pnpm install" ++ nl) ;;;
  write_stdout ("  pnpm dev" ++ nl ++ nl).

(** [rawTarget ?? '.'] *)
Definition orDot (rawTarget : option string) : string :=
  match rawTarget with Some r => r | None => "." end.

Definition initProject (fuel : nat) (rawTarget : option string)
           (options : list string) : M unit :=
  let targetDir := path_resolve (cwd env) (orDot rawTarget) in
  let force := has "--force" options in
  let isCurrentDir := path_eqb targetDir (cwd env) in
  ensureDir targetDir ;;;
  refuseNonEmpty targetDir force ;;;
  refuseCurrentDir targetDir force isCurrentDir ;;;
  clearTarget targetDir force isCurrentDir ;;;
  materialize fuel targetDir isCurrentDir ;;;
  report targetDir.

Definition doctor : M unit :=
  result <- spawnSync "pnpm" ["--version"] (cwd env) ;;
  let hasPnpm :=
    match res_status result with Some s => Z.eqb s 0 | None => false end in
  let issues :=
    (if Z.ltb (nodeMajor env) 20 then ["Node.js >= 20 is required."] else [])
      ++ (if negb hasPnpm
          then ["pnpm is recommended but was not found in PATH."] else []) in
  match issues with
  | [] => write_stdout ("Environment looks good." ++ nl)
  | _ :: _ =>
      for_each issues (fun issue => write_stderr ("- " ++ issue ++ nl)) ;;;
      exit 1%Z
  end.

(** [args[i]], undefined outside the array. *)
Definition at_index (args : list string) (i : Z) : option string :=
  if Z.ltb i 0 then None else nth_error args (Z.to_nat i).

(** [args.find((arg, index) => f(arg, index))], scanning from [index]. *)
Fixpoint find_indexed (f : string -> Z -> bool) (l : list string) (index : Z)
  : option string :=
  match l with
  | [] => None
  | arg :: rest =>
      if f arg index then Some arg else find_indexed f rest (index + 1)%Z
  end.

(** The positional that directly follows the [init] token. *)
Definition initTarget (args : list string) : option string :=
  find_indexed
    (fun arg index =>
       if startsWithDash arg then false
       else match at_index args (index - 1)%Z with
            | Some previous => String.eqb previous "init"
            | None => false
            end)
    args 0%Z.

Definition forwarded (command : string) : bool :=
  String.eqb command "dev" || String.eqb command "build"
  || String.eqb command "preview" || String.eqb command "test"
  || String.eqb command "lint".

(** [args] is [process.argv.slice(2)]. *)
Definition main (fuel : nat) (args : list string) : M unit :=
  let options := filter startsWithDash args in
  let command := find (fun arg => negb (startsWithDash arg)) args in
  if has "-h" options || has "--help" options then printHelp else
  match command with
  | None => initProject fuel (Some ".") options
  | Some command =>
      (* [!command] also holds of the empty string *)
      if String.eqb command "" then initProject fuel (Some ".") options
      else if String.eqb command "init"
      then initProject fuel (initTarget args) options
      else if String.eqb command "doctor" then doctor
      else if forwarded command then runProjectScript command
      else
        write_stderr ("Unknown command: " ++ command ++ nl ++ nl) ;;;
        printHelp ;;;
        exit 1%Z
  end.

End Script.

(* ================================================================== *)
(** ** Trees used by the statements about the filtered copy *)

(** The tree the filtered copy produces from a source tree: the excluded
    names are dropped at every level. *)
Fixpoint prune (t : node) : node :=
  match t with
  | File c => File c
  | Dir es =>
      Dir (filter (fun e => negb (excluded (fst e)))
             (map (fun e => (fst e, prune (snd e))) es))
  end.

Definition prune_entries (es : list (string * node)) : list (string * node) :=
  filter (fun e => negb (excluded (fst e)))
    (map (fun e => (fst e, prune (snd e))) es).

Fixpoint height (t : node) : nat :=
  match t with
  | File _ => 0
  | Dir es => S (fold_right Nat.max 0 (map (fun e => height (snd e)) es))
  end.

Fixpoint nodupb (l : list string) : bool :=
  match l with
  | [] => true
  | x :: rest => negb (existsb (String.eqb x) rest) && nodupb rest
  end.

(** A directory lists each name once, at every level. *)
Fixpoint wfb (t : node) : bool :=
  match t with
  | File _ => true
  | Dir es => nodupb (map fst es) && forallb (fun e => wfb (snd e)) es
  end.

(** A directory that holds nothing but [.git] and [.DS_Store] entries. *)
Definition only_ignored (es : list (string * node)) : bool :=
  forallb (fun e => String.eqb (fst e) ".git" || String.eqb (fst e) ".DS_Store")
          es.

(** The file system after the loop of [clearTarget] has gone through
    [names]. *)
Definition cleared (targetDir : path) (names : list string) (t : node) : node :=
  fold_left
    (fun t entry =>
       if String.eqb entry ".git" then t else Fs.rm (join targetDir entry) t)
    names t.

(** A relative path that goes through an excluded name. *)
Definition has_excluded (rel : path) : bool := existsb excluded rel.

(** What a copy into [tgt] leaves as it was: the output streams, the
    processes started, every path that branches off [tgt], and every path
    below [tgt] that goes through an excluded name. *)
Definition copy_frame (tgt : path) (w w' : World) : Prop :=
  stdout w' = stdout w /\ stderr w' = stderr w /\ spawned w' = spawned w
  /\ (forall p, divergeb p tgt = true ->
                Fs.lookup p (fs w') = Fs.lookup p (fs w))
  /\ (forall rel, has_excluded rel = true ->
                  Fs.lookup (tgt ++ rel) (fs w') = Fs.lookup (tgt ++ rel) (fs w)).

(** The target of a copy is a directory holding [es0], or is about to be
    created in an existing directory. *)
Definition target_ready (tgt : path) (t : node) (es0 : list (string * node))
  : Prop :=
  Fs.lookup tgt t = Some (Dir es0)
  \/ (es0 = [] /\ Fs.lookup tgt t = None
      /\ exists q n pes, tgt = q ++ [n] /\ Fs.lookup q t = Some (Dir pes)).

(** [readdirSync(..., { withFileTypes: true })] of one entry. *)
Definition dirent (e : string * node) : string * bool :=
  (fst e, Fs.is_dir (snd e)).

(* ================================================================== *)
(** ** What a run of [initProject] can do to the world *)

(** An outcome other than a normal return. *)
Definition fails {A} (o : outcome A) : bool :=
  match o with Ret _ => false | _ => true end.

(** The file system changed at most at the target, below it, above it, and
    in the temporary directory. *)
Definition local_writes (targetDir tmp : path) (t t' : node) : Prop :=
  forall p, divergeb p targetDir = true -> divergeb p tmp = true ->
            Fs.lookup p t' = Fs.lookup p t.

(** Steps that print nothing on standard output, start no process and
    write locally. *)
Definition quiet_local (targetDir tmp : path) (w w' : World) : Prop :=
  stdout w' = stdout w /\ spawned w' = spawned w
  /\ local_writes targetDir tmp (fs w) (fs w').

(** One [git clone] of the template, run from [dir]; the file system is
    what the clone leaves. *)
Definition one_clone (spawn : SpawnCall -> node -> SpawnResult * node)
           (dir : path) (w w' : World) : Prop :=
  stdout w' = stdout w
  /\ exists dst,
      spawned w' =
      spawned w ++
      [mkCall "git" ["clone"; "--depth"; "1"; REPO_URL; path_str dst] dir]
      /\ fs w' =
         snd (spawn (mkCall "git" ["clone"; "--depth"; "1"; REPO_URL;
                                   path_str dst] dir) (fs w)).

(** Quiet local steps, with at most one clone among them. *)
Definition init_effect (spawn : SpawnCall -> node -> SpawnResult * node)
           (env : Env) (targetDir : path) (w w' : World) : Prop :=
  quiet_local targetDir (tmpdir env) w w'
  \/ exists w1 w2,
      quiet_local targetDir (tmpdir env) w w1
      /\ one_clone spawn (cwd env) w1 w2
      /\ quiet_local targetDir (tmpdir env) w2 w'.

(* ================================================================== *)
(** ** The redirect decision of the chat screen

    [shouldRedirectToConnect] is the second file of the repository.  The
    helper [isMissingGatewayAuth] it imports from [../utils] is not part of
    the sources at hand and is taken as a parameter. *)

Record UseChatErrorStateInput : Type := mkChatErrorState {
  isRedirecting : bool;
  shouldRedirectToNew : bool;
  sessionsReady : bool;
  activeExists : bool;
  sessionsError : option string;      (* string | null *)
  historyError : option string;
  gatewayStatusError : option string
}.

(** [a ?? b] *)
Definition nullish {A} (a b : option A) : option A :=
  match a with Some x => Some x | None => b end.

Section Redirect.

Variable isMissingGatewayAuth : string -> bool.

Definition shouldRedirectToConnect (i : UseChatErrorStateInput) : bool :=
  if isRedirecting i || shouldRedirectToNew i then false else
  if sessionsReady i && negb (activeExists i) then false else
  let messageText :=
    nullish (nullish (sessionsError i) (historyError i)) (gatewayStatusError i) in
  match messageText with
  | None => false
  | Some text =>
      (* [!messageText] also holds of the empty string *)
      if String.eqb text "" then false else isMissingGatewayAuth text
  end.

End Redirect.

(* ================================================================== *)
(** ** Worlds used to run the script on concrete inputs *)

Module Example.

Definition template : list (string * node) :=
  [("package.json", File "{}");
   (".git", Dir [("HEAD", File "ref: refs/heads/main")]);
   ("src", Dir [("main.ts", File "export {}");
                (".DS_Store", File "");
                ("node_modules", Dir [("x", File "")])]);
   (".env.local", File "SECRET=1")].

(** A stand-in for the child processes: [git clone] writes [template] at
    its destination, any other command ends with status 3. *)
Definition children (c : SpawnCall) (t : node) : SpawnResult * node :=
  if String.eqb (call_cmd c) "git" then
    match nth_error (call_args c) 4 with
    | Some dst =>
        let p := path_resolve [] dst in
        match Fs.mkdirp p t with
        | Some t1 =>
            match Fs.put p (Dir template) t1 with
            | Some t2 => (mkResult None (Some 0%Z), t2)
            | None => (mkResult None (Some 128%Z), t)
            end
        | None => (mkResult None (Some 128%Z), t)
        end
    | None => (mkResult None (Some 129%Z), t)
    end
  else (mkResult None (Some 3%Z), t).

Definition suffix (_ : node) : string := "Ab12Cd".

Definition env : Env := mkEnv ["home"; "u"] ["tmp"] 20.

(** An empty home directory. *)
Definition fresh : World :=
  mkWorld (Dir [("home", Dir [("u", Dir [])]); ("tmp", Dir [])]) [] [] [].

(** A home directory with a note in it, and a project next to it that was
    cloned before. *)
Definition used : World :=
  mkWorld
    (Dir [("home",
           Dir [("u", Dir [("notes.txt", File "keep me");
                           (".DS_Store", File "")]);
                ("proj", Dir [(".git", Dir [("HEAD", File "ref")]);
                              ("package.json", File "{}");
                              ("pnpm-lock.yaml", File "")])]);
          ("tmp", Dir [])])
    [] [] [].

(** A stand-in for child processes that all end with status 3. *)
Definition failing (c : SpawnCall) (t : node) : SpawnResult * node :=
  (mkResult None (Some 3%Z), t).

(** The process started inside the project of [used]. *)
Definition projEnv : Env := mkEnv ["home"; "proj"] ["tmp"] 20.

(** [fresh] with the staging directory made, and with the clone in it. *)
Definition staging : node :=
  Dir [("home", Dir [("u", Dir [])]);
       ("tmp", Dir [("webclaw-Ab12Cd", Dir [])])].

Definition staged : node :=
  Dir [("home", Dir [("u", Dir [])]);
       ("tmp", Dir [("webclaw-Ab12Cd", Dir [("repo", Dir template)])])].

(** [fresh] with the directory [proj] made, and with the clone in it. *)
Definition made : World :=
  mkWorld (Dir [("home", Dir [("u", Dir [("proj", Dir [])])]); ("tmp", Dir [])])
    [] [] [].

Definition cloned : node :=
  Dir [("home", Dir [("u", Dir [("proj", Dir template)])]); ("tmp", Dir [])].

(** Stand-ins in which [pnpm] alone goes wrong: it is killed by a signal
    (no numeric status), or it cannot be started; every other command
    does what [children] does. *)
Definition killed (c : SpawnCall) (t : node) : SpawnResult * node :=
  if String.eqb (call_cmd c) "pnpm" then (mkResult None None, t)
  else children c t.

Definition absent (c : SpawnCall) (t : node) : SpawnResult * node :=
  if String.eqb (call_cmd c) "pnpm"
  then (mkResult (Some "spawn ENOENT") None, t)
  else children c t.

(** A runtime older than the one [doctor] asks for. *)
Definition oldEnv : Env := mkEnv ["home"; "u"] ["tmp"] 18.

(** A workspace: the application below [apps/webclaw], a yarn lockfile at
    the top. *)
Definition workspace : World :=
  mkWorld
    (Dir [("home",
           Dir [("u", Dir [("apps",
                            Dir [("webclaw",
                                  Dir [("package.json", File "{}")])]);
                           ("package.json", File "{}");
                           ("yarn.lock", File "")])]);
          ("tmp", Dir [])])
    [] [] [].

(** A directory with entries but no [.git], next to the home directory. *)
Definition cluttered : World :=
  mkWorld
    (Dir [("home", Dir [("u", Dir []);
                        ("old", Dir [("a.txt", File "a");
                                     ("sub", Dir [("b.txt", File "b")])])]);
          ("tmp", Dir [])])
    [] [] [].

(** A stand-in for [isMissingGatewayAuth]. *)
Definition authMissing (text : string) : bool :=
  String.eqb text "missing gateway auth".

(** [fresh] after [init proj] has run in it. *)
Definition provisioned : World :=
  snd (initProject children suffix env 1 (Some "proj") [] fresh).

End Example.

(* ================================================================== *)
(** ** Facts about paths and the file system *)

Section FsFacts.

Import Fs.

Lemma path_eqb_refl (p : path) : path_eqb p p = true.
Proof.
  induction p as [|a p IH]; simpl; [reflexivity|].
  now rewrite String.eqb_refl.
Qed.

Lemma path_eqb_eq (p q : path) : path_eqb p q = true <-> p = q.
Proof.
  split; [|intros ->; apply path_eqb_refl].
  revert q; induction p as [|a p IH]; intros [|b q]; simpl; try easy.
  intros H; apply andb_true_iff in H as [Hab Hpq].
  apply String.eqb_eq in Hab; subst b.
  now rewrite (IH q Hpq).
Qed.

Lemma divergeb_nil_r (p : path) : divergeb p [] = false.
Proof. now destruct p. Qed.

Lemma divergeb_app_same (c p q : path) :
  divergeb (c ++ p) (c ++ q) = divergeb p q.
Proof.
  induction c as [|a c IH]; simpl; [reflexivity|].
  now rewrite String.eqb_refl.
Qed.

Lemma divergeb_sym (p q : path) : divergeb p q = divergeb q p.
Proof.
  revert q; induction p as [|a p IH]; intros [|b q]; simpl; try reflexivity.
  rewrite (String.eqb_sym b a).
  destruct (String.eqb a b); [apply IH | reflexivity].
Qed.

Lemma divergeb_app_l (p q r : path) :
  divergeb p q = true -> divergeb (p ++ r) q = true.
Proof.
  revert q; induction p as [|a p IH]; intros [|b q]; simpl; try easy.
  destruct (String.eqb a b); [apply IH | reflexivity].
Qed.

Lemma divergeb_app_r (p q r : path) :
  divergeb p q = true -> divergeb p (q ++ r) = true.
Proof.
  intros H. rewrite divergeb_sym. apply divergeb_app_l.
  now rewrite divergeb_sym.
Qed.

Lemma lookup_entry_set_same n v es :
  lookup_entry n (set_entry n v es) = Some v.
Proof.
  induction es as [|[m c] es IH]; simpl.
  - now rewrite String.eqb_refl.
  - destruct (String.eqb m n) eqn:E; simpl; rewrite E; [reflexivity | apply IH].
Qed.

Lemma lookup_entry_set_other n m v es :
  m <> n -> lookup_entry m (set_entry n v es) = lookup_entry m es.
Proof.
  intros Hne. induction es as [|[k c] es IH]; simpl.
  - destruct (String.eqb n m) eqn:E; [|reflexivity].
    apply String.eqb_eq in E; congruence.
  - destruct (String.eqb k n) eqn:E; simpl.
    + apply String.eqb_eq in E; subst k.
      destruct (String.eqb n m) eqn:E'; [|reflexivity].
      apply String.eqb_eq in E'; congruence.
    + destruct (String.eqb k m); [reflexivity | apply IH].
Qed.

Lemma lookup_entry_none_iff n es :
  lookup_entry n es = None <-> ~ In n (map fst es).
Proof.
  induction es as [|[m c] es IH]; simpl; [tauto|].
  destruct (String.eqb m n) eqn:E.
  - apply String.eqb_eq in E. split; [discriminate | tauto].
  - apply String.eqb_neq in E. rewrite IH. tauto.
Qed.

Lemma set_entry_same n c es :
  lookup_entry n es = Some c -> set_entry n c es = es.
Proof.
  induction es as [|[m c0] es IH]; simpl; [discriminate|].
  destruct (String.eqb m n) eqn:E.
  - intros [= ->]. reflexivity.
  - intros H. now rewrite IH.
Qed.

Lemma set_entry_set n v v' es :
  set_entry n v' (set_entry n v es) = set_entry n v' es.
Proof.
  induction es as [|[m c] es IH]; simpl.
  - now rewrite String.eqb_refl.
  - destruct (String.eqb m n) eqn:E; simpl; rewrite E; [reflexivity|].
    now rewrite IH.
Qed.

Lemma set_entry_fresh n v es :
  lookup_entry n es = None -> set_entry n v es = es ++ [(n, v)].
Proof.
  induction es as [|[m c] es IH]; simpl; [reflexivity|].
  destruct (String.eqb m n); [discriminate|].
  intros H. now rewrite IH.
Qed.

Lemma lookup_app p r t :
  lookup (p ++ r) t =
  match lookup p t with Some c => lookup r c | None => None end.
Proof.
  revert t; induction p as [|n p IH]; intros t; simpl; [reflexivity|].
  destruct t as [c|es]; [reflexivity|].
  destruct (lookup_entry n es); [apply IH | reflexivity].
Qed.

Lemma lookup_below_file p r t c :
  lookup p t = Some (File c) -> r <> [] -> lookup (p ++ r) t = None.
Proof.
  intros H Hr. rewrite lookup_app, H. destruct r; [congruence | reflexivity].
Qed.

Lemma lookup_below_none p r t :
  lookup p t = None -> lookup (p ++ r) t = None.
Proof. intros H. now rewrite lookup_app, H. Qed.

Lemma put_lookup_same q v t t' :
  put q v t = Some t' -> lookup q t' = Some v.
Proof.
  revert t t'; induction q as [|n q IH]; intros t t'; simpl.
  - now intros [= ->].
  - destruct t as [c|es]; [discriminate|].
    destruct (lookup_entry n es) as [c|] eqn:E.
    + destruct (put q v c) as [c'|] eqn:P; [|discriminate].
      intros [= <-]. simpl. rewrite lookup_entry_set_same. eapply IH; eauto.
    + destruct q; [|discriminate].
      intros [= <-]. simpl. now rewrite lookup_entry_set_same.
Qed.

Lemma put_diverge q v t t' p :
  put q v t = Some t' -> divergeb p q = true -> lookup p t' = lookup p t.
Proof.
  revert t t' p; induction q as [|n q IH]; intros t t' p.
  - now rewrite divergeb_nil_r.
  - destruct p as [|a p]; [discriminate|]. simpl.
    destruct t as [c|es]; [discriminate|].
    destruct (String.eqb a n) eqn:Ean.
    + apply String.eqb_eq in Ean; subst a.
      destruct (lookup_entry n es) as [c|] eqn:E.
      * destruct (put q v c) as [c'|] eqn:P; [|discriminate].
        intros [= <-] D. simpl. rewrite lookup_entry_set_same, ?E.
        eapply IH; eauto.
      * destruct q; [|discriminate]. now rewrite divergeb_nil_r.
    + apply String.eqb_neq in Ean. intros H _.
      assert (exists c', t' = Dir (set_entry n c' es)) as [c' ->].
      { destruct (lookup_entry n es) as [c|].
        - destruct (put q v c) as [c'|]; [|discriminate].
          injection H as <-. eauto.
        - destruct q; [|discriminate]. injection H as <-. eauto. }
      simpl. now rewrite lookup_entry_set_other.
Qed.

Lemma put_exists q v t c :
  q <> [] -> lookup q t = Some c -> exists t', put q v t = Some t'.
Proof.
  revert t; induction q as [|n q IH]; intros t Hq; [congruence|]. simpl.
  destruct t as [c0|es]; [discriminate|].
  destruct (lookup_entry n es) as [c1|] eqn:E; [|discriminate].
  intros H. destruct q as [|m q].
  - simpl. eauto.
  - destruct (IH c1 ltac:(discriminate) H) as [c' ->]. eauto.
Qed.

Lemma put_put q v v' t t1 :
  put q v t = Some t1 -> put q v' t1 = put q v' t.
Proof.
  revert t t1; induction q as [|n q IH]; intros t t1; simpl; [reflexivity|].
  destruct t as [c|es]; [discriminate|].
  destruct (lookup_entry n es) as [c|] eqn:E.
  - destruct (put q v c) as [c'|] eqn:P; [|discriminate].
    intros [= <-]. rewrite lookup_entry_set_same, (IH _ _ P).
    destruct (put q v' c); [|reflexivity]. now rewrite set_entry_set.
  - destruct q; [|discriminate].
    intros [= <-]. rewrite lookup_entry_set_same. simpl.
    now rewrite set_entry_set.
Qed.

(** A write below [q] is a write of the changed subtree at [q]. *)
Lemma put_app q r v t c :
  q <> [] -> lookup q t = Some c ->
  put (q ++ r) v t =
  match put r v c with Some c' => put q c' t | None => None end.
Proof.
  revert t; induction q as [|n q IH]; intros t Hq; [congruence|]. simpl.
  destruct t as [c0|es]; [discriminate|].
  destruct (lookup_entry n es) as [c1|] eqn:E; [|discriminate].
  intros H. destruct q as [|m q].
  - simpl in H. injection H as ->. simpl.
    destruct (put r v c); reflexivity.
  - rewrite (IH c1 ltac:(discriminate) H).
    destruct (put r v c); reflexivity.
Qed.

Lemma put_child q n v t es :
  lookup q t = Some (Dir es) ->
  put (q ++ [n]) v t =
  match q with
  | [] => Some (Dir (set_entry n v es))
  | _ :: _ => put q (Dir (set_entry n v es)) t
  end.
Proof.
  intros H. destruct q as [|m q].
  - simpl in *. injection H as ->.
    destruct (lookup_entry n es); reflexivity.
  - rewrite (put_app (m :: q) [n] v t (Dir es)) by (discriminate || assumption).
    simpl. destruct (lookup_entry n es); reflexivity.
Qed.

Lemma mkdirp_existing p t es :
  lookup p t = Some (Dir es) -> mkdirp p t = Some t.
Proof.
  revert t; induction p as [|n p IH]; intros t; simpl.
  - intros [= ->]. reflexivity.
  - destruct t as [c|es0]; [discriminate|].
    destruct (lookup_entry n es0) as [c|] eqn:E; [|discriminate].
    intros H. rewrite (IH _ H). now rewrite (set_entry_same _ _ _ E).
Qed.

Lemma mkdirp_fresh_child q n t es :
  lookup q t = Some (Dir es) -> lookup_entry n es = None ->
  mkdirp (q ++ [n]) t = put (q ++ [n]) (Dir []) t.
Proof.
  revert t; induction q as [|m q IH]; intros t; simpl.
  - intros [= ->] E. now rewrite E.
  - destruct t as [c|es0]; [discriminate|].
    destruct (lookup_entry m es0) as [c|] eqn:E0; [|discriminate].
    intros H E. now rewrite (IH _ H E).
Qed.

Lemma mkdirp_diverge q t t' p :
  mkdirp q t = Some t' -> divergeb p q = true -> lookup p t' = lookup p t.
Proof.
  revert t t' p; induction q as [|n q IH]; intros t t' p.
  - now rewrite divergeb_nil_r.
  - destruct p as [|a p]; [discriminate|]. simpl.
    destruct t as [c|es]; [discriminate|].
    destruct (mkdirp q _) as [c'|] eqn:P; [|discriminate].
    intros [= <-]. simpl.
    destruct (String.eqb a n) eqn:Ean.
    + apply String.eqb_eq in Ean; subst a. intros D.
      rewrite lookup_entry_set_same.
      rewrite (IH _ _ _ P D).
      destruct (lookup_entry n es); [reflexivity|]. now destruct p.
    + apply String.eqb_neq in Ean. intros _.
      now rewrite lookup_entry_set_other.
Qed.

Lemma mkdirp_empty q c' :
  mkdirp q (Dir []) = Some c' -> lookup q c' = Some (Dir []).
Proof.
  revert c'; induction q as [|n q IH]; intros c'; simpl.
  - now intros [= <-].
  - destruct (mkdirp q (Dir [])) as [c|] eqn:P; [|discriminate].
    intros [= <-]. simpl. rewrite String.eqb_refl. now apply IH.
Qed.

Lemma mkdirp_fresh q t t' :
  lookup q t = None -> mkdirp q t = Some t' -> lookup q t' = Some (Dir []).
Proof.
  revert t t'; induction q as [|n q IH]; intros t t'; simpl; [discriminate|].
  destruct t as [c|es]; [discriminate|].
  destruct (lookup_entry n es) as [c|] eqn:E.
  - intros H. destruct (mkdirp q c) as [c'|] eqn:P; [|discriminate].
    intros [= <-]. simpl. rewrite lookup_entry_set_same. eapply IH; eauto.
  - intros _. destruct (mkdirp q (Dir [])) as [c'|] eqn:P; [|discriminate].
    intros [= <-]. simpl. rewrite lookup_entry_set_same.
    now apply mkdirp_empty.
Qed.

Lemma lookup_entry_remove n m es :
  lookup_entry m (remove_entry n es) =
  if String.eqb m n then None else lookup_entry m es.
Proof.
  induction es as [|[k c] es IH]; simpl.
  - now destruct (String.eqb m n).
  - destruct (String.eqb k n) eqn:Ekn; simpl.
    + apply String.eqb_eq in Ekn; subst k.
      rewrite IH, (String.eqb_sym n m). now destruct (String.eqb m n).
    + destruct (String.eqb k m) eqn:Ekm; [|apply IH].
      apply String.eqb_eq in Ekm; subst k. now rewrite Ekn.
Qed.

Lemma rm_diverge q t p :
  divergeb p q = true -> lookup p (rm q t) = lookup p t.
Proof.
  revert t p; induction q as [|n q IH]; intros t p.
  - now rewrite divergeb_nil_r.
  - destruct p as [|a p]; [discriminate|]. simpl.
    destruct t as [c|es]; [reflexivity|].
    destruct (String.eqb a n) eqn:Ean.
    + apply String.eqb_eq in Ean; subst a. intros D.
      destruct q as [|m q]; [now rewrite divergeb_nil_r in D|].
      destruct (lookup_entry n es) as [c|] eqn:E;
        [|simpl; rewrite ?E; reflexivity].
      simpl. rewrite lookup_entry_set_same, ?E. now apply IH.
    + intros _. destruct q as [|m q].
      * simpl. now rewrite lookup_entry_remove, Ean.
      * destruct (lookup_entry n es) as [c|] eqn:E; [|reflexivity].
        simpl. apply String.eqb_neq in Ean.
        now rewrite lookup_entry_set_other.
Qed.

Lemma rm_none q t p :
  lookup p t = None -> lookup p (rm q t) = None.
Proof.
  revert t p; induction q as [|n q IH]; intros t p; [trivial|]. simpl.
  destruct t as [c|es]; [trivial|].
  destruct p as [|a p]; [discriminate|].
  destruct q as [|m q].
  - simpl. rewrite lookup_entry_remove.
    now destruct (String.eqb a n).
  - destruct (lookup_entry n es) as [c|] eqn:E; [|trivial].
    simpl. destruct (String.eqb a n) eqn:Ean.
    + apply String.eqb_eq in Ean; subst a.
      rewrite lookup_entry_set_same, E. apply IH.
    + apply String.eqb_neq in Ean. now rewrite lookup_entry_set_other.
Qed.

Lemma rm_child q n t es :
  lookup q t = Some (Dir es) ->
  lookup q (rm (q ++ [n]) t) = Some (Dir (remove_entry n es)).
Proof.
  revert t; induction q as [|m q IH]; intros t; simpl.
  - now intros [= ->].
  - destruct t as [c|es0]; [discriminate|].
    destruct (lookup_entry m es0) as [c|] eqn:E; [|discriminate].
    intros H.
    destruct (q ++ [n]) as [|k r] eqn:Eq; [now destruct q|].
    rewrite lookup_entry_set_same. now apply IH.
Qed.

Lemma rm_self q t : q <> [] -> lookup q (rm q t) = None.
Proof.
  revert t; induction q as [|n q IH]; intros t Hq; [congruence|]. simpl.
  destruct t as [c|es]; [reflexivity|].
  destruct q as [|m q].
  - simpl. now rewrite lookup_entry_remove, String.eqb_refl.
  - destruct (lookup_entry n es) as [c|] eqn:E.
    + simpl. rewrite lookup_entry_set_same. apply IH. discriminate.
    + simpl. now rewrite E.
Qed.

End FsFacts.

(* ================================================================== *)
(** ** Facts about the monad *)

Section MonadFacts.

Context {A B : Type}.

Lemma bind_Ret (m : M A) (k : A -> M B) w a w1 :
  m w = (Ret a, w1) -> bind m k w = k a w1.
Proof. unfold bind. now intros ->. Qed.

Lemma bind_Exit (m : M A) (k : A -> M B) w c w1 :
  m w = (Exit c, w1) -> bind m k w = (Exit c, w1).
Proof. unfold bind. now intros ->. Qed.

Lemma bind_Throw (m : M A) (k : A -> M B) w e w1 :
  m w = (Throw e, w1) -> bind m k w = (Throw e, w1).
Proof. unfold bind. now intros ->. Qed.

(** What holds of every step holds of their sequence. *)
Lemma bind_preserves (R : World -> World -> Prop) (m : M A) (k : A -> M B) :
  (forall w1 w2 w3, R w1 w2 -> R w2 w3 -> R w1 w3) ->
  (forall w o w', m w = (o, w') -> R w w') ->
  (forall a w o w', k a w = (o, w') -> R w w') ->
  forall w o w', bind m k w = (o, w') -> R w w'.
Proof.
  intros Rtrans Hm Hk w o w'. unfold bind.
  destruct (m w) as [[a|c|e|] w1] eqn:E; intros H.
  - eapply Rtrans; [eapply Hm; eauto | eapply Hk; eauto].
  - injection H as <- <-. eapply Hm; eauto.
  - injection H as <- <-. eapply Hm; eauto.
  - injection H as <- <-. eapply Hm; eauto.
Qed.

End MonadFacts.

Lemma for_each_preserves {A} (R : World -> World -> Prop)
      (xs : list A) (body : A -> M unit) :
  (forall w, R w w) ->
  (forall w1 w2 w3, R w1 w2 -> R w2 w3 -> R w1 w3) ->
  (forall x w o w', In x xs -> body x w = (o, w') -> R w w') ->
  forall w o w', for_each xs body w = (o, w') -> R w w'.
Proof.
  intros Rrefl Rtrans. induction xs as [|x xs IH]; intros Hbody w o w'; simpl.
  - unfold ret. intros [= <- <-]. apply Rrefl.
  - apply bind_preserves; [assumption | |].
    + intros w0 o0 w0'. apply Hbody. now left.
    + intros _. apply IH. intros y w0 o0 w0' Hy. apply Hbody. now right.
Qed.

(* ================================================================== *)
(** ** The primitives that only read *)

Section Reads.

Lemma ensureDir_present targetDir w v :
  Fs.lookup targetDir (fs w) = Some v -> ensureDir targetDir w = (Ret tt, w).
Proof.
  intros H. unfold ensureDir, bind, existsSync, Fs.existsb. now rewrite H.
Qed.

Lemma filter_counted_length (es : list (string * node)) :
  Nat.eqb (length (filter counted (map fst es))) 0 =
  forallb (fun e => String.eqb (fst e) ".git" || String.eqb (fst e) ".DS_Store")
          es.
Proof.
  induction es as [|[n c] es IH]; simpl; [reflexivity|].
  unfold counted at 1.
  destruct (String.eqb n ".git"), (String.eqb n ".DS_Store"); simpl; auto.
Qed.

Lemma isDirEmpty_dir targetDir w es :
  Fs.lookup targetDir (fs w) = Some (Dir es) ->
  isDirEmpty targetDir w = (Ret (only_ignored es), w).
Proof.
  intros H.
  unfold isDirEmpty, bind, existsSync, Fs.existsb, readdirSync, ret.
  rewrite H. cbn [negb]. rewrite H. now rewrite filter_counted_length.
Qed.

Lemma isDirEmpty_missing targetDir w :
  Fs.lookup targetDir (fs w) = None -> isDirEmpty targetDir w = (Ret true, w).
Proof.
  intros H. unfold isDirEmpty, bind, existsSync, Fs.existsb. now rewrite H.
Qed.

End Reads.

(* ================================================================== *)
(** ** The steps of [initProject] *)

Section Steps.

Variable spawn : SpawnCall -> node -> SpawnResult * node.
Variable mkdtemp_suffix : node -> string.
Variable env : Env.

Lemma refuseNonEmpty_force targetDir w :
  refuseNonEmpty targetDir true w = (Ret tt, w).
Proof. reflexivity. Qed.

Lemma refuseNonEmpty_dir targetDir w es :
  Fs.lookup targetDir (fs w) = Some (Dir es) ->
  refuseNonEmpty targetDir false w =
  if only_ignored es then (Ret tt, w)
  else (Exit 1%Z,
        put_stderr ("Target directory is not empty. Use --force to continue: "
                      ++ path_str targetDir ++ nl) w).
Proof.
  intros H. unfold refuseNonEmpty, when, andM, notM. cbn [negb].
  unfold bind at 1 2. rewrite (isDirEmpty_dir _ _ _ H).
  now destruct (only_ignored es).
Qed.

Lemma refuseCurrentDir_noforce targetDir isCurrentDir w :
  refuseCurrentDir targetDir false isCurrentDir w = (Ret tt, w).
Proof. reflexivity. Qed.

Lemma refuseCurrentDir_dir targetDir isCurrentDir w es :
  Fs.lookup targetDir (fs w) = Some (Dir es) ->
  refuseCurrentDir targetDir true isCurrentDir w =
  if negb (only_ignored es) && isCurrentDir
  then (Exit 1%Z,
        put_stderr
          ("Refusing to overwrite current directory. Use an empty directory for init."
             ++ nl) w)
  else (Ret tt, w).
Proof.
  intros H. unfold refuseCurrentDir, when, andM, notM.
  unfold bind at 1 2 3. rewrite (isDirEmpty_dir _ _ _ H).
  now destruct (only_ignored es), isCurrentDir.
Qed.

Lemma clearTarget_noforce targetDir isCurrentDir w :
  clearTarget targetDir false isCurrentDir w = (Ret tt, w).
Proof. reflexivity. Qed.

Lemma clearTarget_skip targetDir isCurrentDir w es :
  Fs.lookup targetDir (fs w) = Some (Dir es) ->
  negb (only_ignored es) && negb isCurrentDir = false ->
  clearTarget targetDir true isCurrentDir w = (Ret tt, w).
Proof.
  intros H Hc. unfold clearTarget, when, andM, notM.
  unfold bind at 1 2 3. rewrite (isDirEmpty_dir _ _ _ H).
  unfold ret at 1 2. now rewrite Hc.
Qed.

Lemma materialize_hasGit fuel targetDir isCurrentDir w :
  Fs.existsb (join targetDir ".git") (fs w) = true ->
  materialize spawn mkdtemp_suffix env fuel targetDir isCurrentDir w
  = (Ret tt, w).
Proof.
  intros H. unfold materialize, when, andM, existsSync.
  unfold bind at 1 2. now rewrite H.
Qed.

Lemma report_Ret targetDir w :
  report env targetDir w = (Ret tt, snd (report env targetDir w)).
Proof. reflexivity. Qed.

Lemma report_fs targetDir w :
  fs (snd (report env targetDir w)) = fs w
  /\ stderr (snd (report env targetDir w)) = stderr w
  /\ spawned (snd (report env targetDir w)) = spawned w.
Proof. now repeat split. Qed.

End Steps.

(* ================================================================== *)
(** ** The toolchain probe and the forwarder *)

Section Forwarding.

Variable spawn : SpawnCall -> node -> SpawnResult * node.
Variable mkdtemp_suffix : node -> string.
Variable env : Env.

Lemma detectPackageManager_reads (dir : path) (w : World) :
  exists pm, detectPackageManager dir w = (Ret pm, w).
Proof.
  unfold detectPackageManager, bind, existsSync, ret.
  destruct (Fs.existsb (join dir "pnpm-lock.yaml") (fs w)); [eauto|].
  destruct (Fs.existsb (join dir "yarn.lock") (fs w)); eauto.
Qed.

(** C6: [detectPackageManager] always returns, without touching the world:
    pnpm when [pnpm-lock.yaml] is there, else yarn when [yarn.lock] is
    there, else npm. *)
Theorem detectPackageManager_precedence (dir : path) (w : World) :
  detectPackageManager dir w =
  (Ret (if Fs.existsb (join dir "pnpm-lock.yaml") (fs w) then pnpm
        else if Fs.existsb (join dir "yarn.lock") (fs w) then yarn
        else npm),
   w).
Proof.
  unfold detectPackageManager, bind, existsSync, ret.
  destruct (Fs.existsb (join dir "pnpm-lock.yaml") (fs w)); [reflexivity|].
  now destruct (Fs.existsb (join dir "yarn.lock") (fs w)).
Qed.

(** C4: a directory that does not exist is classified empty; an existing
    directory is classified empty exactly when each of its entries is
    [.git] or [.DS_Store]. *)
Theorem isDirEmpty_classifies (targetDir : path) (w : World) :
  isDirEmpty targetDir w =
  match Fs.lookup targetDir (fs w) with
  | None => (Ret true, w)
  | Some (Dir es) =>
      (Ret (forallb (fun e => String.eqb (fst e) ".git"
                              || String.eqb (fst e) ".DS_Store") es), w)
  | Some (File _) => (Throw ENOTDIR, w)
  end.
Proof.
  destruct (Fs.lookup targetDir (fs w)) as [[c|es]|] eqn:H.
  - unfold isDirEmpty, bind, existsSync, Fs.existsb, readdirSync.
    rewrite H. cbn [negb]. now rewrite H.
  - now apply isDirEmpty_dir.
  - now apply isDirEmpty_missing.
Qed.

Lemma runCommand_status command args dir w N :
  fst (spawn (mkCall command args dir) (fs w)) = mkResult None (Some N) ->
  N <> 0%Z ->
  runCommand spawn command args dir w =
  (Exit N,
   mkWorld (snd (spawn (mkCall command args dir) (fs w)))
           (stdout w) (stderr w) (spawned w ++ [mkCall command args dir])).
Proof.
  intros H HN. unfold runCommand, bind, spawnSync.
  destruct (spawn (mkCall command args dir) (fs w)) as [r t].
  simpl in H. subst r. simpl.
  destruct (Z.eqb N 0) eqn:E; [|reflexivity].
  apply Z.eqb_eq in E. contradiction.
Qed.

Lemma runCommand_ok command args dir w :
  fst (spawn (mkCall command args dir) (fs w)) = mkResult None (Some 0%Z) ->
  runCommand spawn command args dir w =
  (Ret tt,
   mkWorld (snd (spawn (mkCall command args dir) (fs w)))
           (stdout w) (stderr w) (spawned w ++ [mkCall command args dir])).
Proof.
  intros H. unfold runCommand, bind, spawnSync.
  destruct (spawn (mkCall command args dir) (fs w)) as [r t].
  simpl in H. now subst r.
Qed.

Lemma forwarded_cases command :
  forwarded command = true ->
  command = "dev" \/ command = "build" \/ command = "preview"
  \/ command = "test" \/ command = "lint".
Proof.
  unfold forwarded. rewrite !orb_true_iff, !String.eqb_eq. tauto.
Qed.

Lemma main_forwards fuel args command w :
  find (fun arg => negb (startsWithDash arg)) args = Some command ->
  forwarded command = true ->
  has "-h" (filter startsWithDash args) = false ->
  has "--help" (filter startsWithDash args) = false ->
  main spawn mkdtemp_suffix env fuel args w
  = runProjectScript spawn env command w.
Proof.
  intros Hc Hf Hh Hhelp. unfold main. rewrite Hc, Hh, Hhelp. cbn [orb].
  destruct (forwarded_cases _ Hf) as [-> | [-> | [-> | [-> | ->]]]]; reflexivity.
Qed.

Lemma runProjectScript_notFound scriptName w :
  detectProjectRoot (cwd env) w = (Ret None, w) ->
  runProjectScript spawn env scriptName w =
  (Exit 1%Z,
   put_stderr
     ("No WebClaw project found in this directory. Run `webclaw init` first."
        ++ nl) w).
Proof.
  intros H. unfold runProjectScript. now rewrite (bind_Ret _ _ _ _ _ H).
Qed.

(** C7: a forwarded subcommand in a directory where no project is found
    writes the diagnostic to standard error and exits with code 1; no
    process is started and the file system is left as it was. *)
Theorem forward_without_project_exits_1 fuel args command w :
  find (fun arg => negb (startsWithDash arg)) args = Some command ->
  forwarded command = true ->
  has "-h" (filter startsWithDash args) = false ->
  has "--help" (filter startsWithDash args) = false ->
  detectProjectRoot (cwd env) w = (Ret None, w) ->
  main spawn mkdtemp_suffix env fuel args w =
  (Exit 1%Z,
   mkWorld (fs w) (stdout w)
     (stderr w ++
      [("No WebClaw project found in this directory. Run `webclaw init` first."
          ++ nl)%string])
     (spawned w)).
Proof.
  intros Hc Hf Hh Hhelp Hd.
  rewrite (main_forwards _ _ _ _ Hc Hf Hh Hhelp).
  now rewrite (runProjectScript_notFound _ _ Hd).
Qed.

Lemma runProjectScript_runs scriptName w d :
  detectProjectRoot (cwd env) w = (Ret (Some d), w) ->
  exists command args dir,
    runProjectScript spawn env scriptName w = runCommand spawn command args dir w.
Proof.
  intros H. unfold runProjectScript. rewrite (bind_Ret _ _ _ _ _ H).
  destruct (detectPackageManager_reads (cwd env) w) as [pm Hpm].
  rewrite (bind_Ret _ _ _ _ _ Hpm).
  destruct (mode d), pm; eauto.
Qed.

(** Whatever the child does, [runCommand] has started it once and the
    file system is what the child leaves. *)
Lemma runCommand_eq command args dir w :
  runCommand spawn command args dir w =
  (match res_error (fst (spawn (mkCall command args dir) (fs w))) with
   | Some e => Throw (SpawnError e)
   | None =>
       match res_status (fst (spawn (mkCall command args dir) (fs w))) with
       | Some s => if negb (Z.eqb s 0) then Exit s else Ret tt
       | None => Ret tt
       end
   end,
   mkWorld (snd (spawn (mkCall command args dir) (fs w)))
     (stdout w) (stderr w) (spawned w ++ [mkCall command args dir])).
Proof.
  unfold runCommand, bind, spawnSync.
  destruct (spawn (mkCall command args dir) (fs w)) as [[e s] t].
  cbn [fst snd res_error res_status].
  destruct e; [reflexivity|]. destruct s as [s|]; [|reflexivity].
  now destruct (Z.eqb s 0).
Qed.

Lemma detectProjectRoot_reads dir w :
  exists d, detectProjectRoot dir w = (Ret d, w)
            /\ (d = None
                \/ d = Some (mkDetected monorepo (dir ++ ["apps"; "webclaw"]))
                \/ d = Some (mkDetected single dir)).
Proof.
  unfold detectProjectRoot, bind, existsSync, ret. cbv zeta.
  destruct (Fs.existsb _ (fs w)); [eauto|].
  destruct (Fs.existsb _ (fs w)); eauto.
Qed.

Lemma runProjectScript_call scriptName w d :
  detectProjectRoot (cwd env) w = (Ret (Some d), w) ->
  exists c,
    runProjectScript spawn env scriptName w
    = runCommand spawn (call_cmd c) (call_args c) (call_cwd c) w
    /\ In (call_cmd c) ["pnpm"; "yarn"; "npm"]
    /\ last (call_args c) "" = scriptName
    /\ ((call_cwd c = appDir d /\ call_args c = ["run"; scriptName])
        \/ (mode d = monorepo /\ call_cmd c = "pnpm" /\ call_cwd c = cwd env
            /\ call_args c = ["-C"; "apps/webclaw"; scriptName])).
Proof.
  intros H. unfold runProjectScript. rewrite (bind_Ret _ _ _ _ _ H).
  destruct (detectPackageManager_reads (cwd env) w) as [pm Hpm].
  rewrite (bind_Ret _ _ _ _ _ Hpm).
  destruct (mode d) eqn:Hm, pm; cbn [pm_name];
    eexists (mkCall _ _ _); cbn [call_cmd call_args call_cwd];
    (split; [reflexivity|]); cbn [In last]; intuition.
Qed.

(** The process [main] has started for a forwarded subcommand is the one
    [runCommand] was called with. *)
Lemma forwarded_started fuel args command w c :
  find (fun arg => negb (startsWithDash arg)) args = Some command ->
  forwarded command = true ->
  has "-h" (filter startsWithDash args) = false ->
  has "--help" (filter startsWithDash args) = false ->
  spawned (snd (main spawn mkdtemp_suffix env fuel args w)) = spawned w ++ [c] ->
  main spawn mkdtemp_suffix env fuel args w
  = runCommand spawn (call_cmd c) (call_args c) (call_cwd c) w.
Proof.
  intros Hc Hf Hh Hhelp Hs.
  rewrite (main_forwards _ _ _ _ Hc Hf Hh Hhelp) in *.
  destruct (detectProjectRoot_reads (cwd env) w) as ([d|] & Hd & _).
  - destruct (runProjectScript_call command w d Hd) as (c0 & E & _).
    rewrite E in *. rewrite runCommand_eq in Hs. cbn [snd spawned] in Hs.
    apply app_inv_head in Hs. injection Hs as <-. reflexivity.
  - rewrite (runProjectScript_notFound _ _ Hd) in Hs.
    cbn [snd spawned put_stderr] in Hs.
    apply (f_equal (@length SpawnCall)) in Hs. rewrite length_app in Hs.
    simpl in Hs. lia.
Qed.

(** C8: when the process that [main] starts for a forwarded subcommand
    ends with a status [N] other than 0, the CLI exits with [N], having
    started that one process; what any other command would do does not
    enter. *)
Theorem forwarded_status_propagates fuel args command w c N :
  find (fun arg => negb (startsWithDash arg)) args = Some command ->
  forwarded command = true ->
  has "-h" (filter startsWithDash args) = false ->
  has "--help" (filter startsWithDash args) = false ->
  spawned (snd (main spawn mkdtemp_suffix env fuel args w)) = spawned w ++ [c] ->
  fst (spawn c (fs w)) = mkResult None (Some N) ->
  N <> 0%Z ->
  main spawn mkdtemp_suffix env fuel args w =
  (Exit N,
   mkWorld (snd (spawn c (fs w))) (stdout w) (stderr w) (spawned w ++ [c])).
Proof.
  intros Hc Hf Hh Hhelp Hs Hr HN.
  rewrite (forwarded_started _ _ _ _ _ Hc Hf Hh Hhelp Hs).
  destruct c as [cmd a dir]. now apply runCommand_status.
Qed.

End Forwarding.

(* ================================================================== *)
(** ** The dispatcher *)

Section Dispatch.

Lemma find_indexed_app f l1 l2 i :
  find_indexed f (l1 ++ l2) i =
  match find_indexed f l1 i with
  | Some x => Some x
  | None => find_indexed f l2 (i + Z.of_nat (length l1))%Z
  end.
Proof.
  revert i; induction l1 as [|x l1 IH]; intros i.
  - simpl. now rewrite Z.add_0_r.
  - cbn [app find_indexed length]. destruct (f x i); [reflexivity|].
    rewrite IH. now replace (i + 1 + Z.of_nat (length l1))%Z
                  with (i + Z.of_nat (S (length l1)))%Z by lia.
Qed.

Lemma find_indexed_none f l i :
  (forall x k, In x l -> f x k = false) -> find_indexed f l i = None.
Proof.
  revert i; induction l as [|x l IH]; intros i H; simpl; [reflexivity|].
  rewrite (H x i (or_introl eq_refl)). apply IH.
  intros y k Hy. apply H. now right.
Qed.

Lemma at_index_before_first post : at_index post (0 - 1) = None.
Proof. reflexivity. Qed.

Lemma at_index_prev_snoc pre z post :
  at_index ((pre ++ [z]) ++ post) (Z.of_nat (length (pre ++ [z])) - 1)
  = Some z.
Proof.
  unfold at_index. rewrite length_app. simpl length.
  destruct (Z.ltb_spec (Z.of_nat (length pre + 1) - 1) 0) as [Hlt|_]; [lia|].
  replace (Z.to_nat (Z.of_nat (length pre + 1) - 1)) with (length pre) by lia.
  rewrite <- app_assoc. rewrite nth_error_app2 by lia.
  now rewrite Nat.sub_diag.
Qed.

Lemma flag_not_init z : startsWithDash z = true -> String.eqb z "init" = false.
Proof.
  intros H. destruct (String.eqb z "init") eqn:E; [|reflexivity].
  apply String.eqb_eq in E. subst z. discriminate.
Qed.

(** The token before position [length pre] is no [init] when [pre] holds
    flags only. *)
Lemma prev_of_flags pre post :
  forallb startsWithDash pre = true ->
  match at_index (pre ++ post) (Z.of_nat (length pre) - 1) with
  | Some previous => String.eqb previous "init"
  | None => false
  end = false.
Proof.
  intros H. induction pre as [|z pre' _] using rev_ind.
  - reflexivity.
  - rewrite at_index_prev_snoc. apply flag_not_init.
    rewrite forallb_app in H. apply andb_true_iff in H as [_ H].
    simpl in H. now rewrite andb_true_r in H.
Qed.

Lemma find_skips_flags (fl rest : list string) :
  forallb startsWithDash fl = true ->
  find (fun arg => negb (startsWithDash arg)) (fl ++ rest)
  = find (fun arg => negb (startsWithDash arg)) rest.
Proof.
  induction fl as [|x fl IH]; simpl; [reflexivity|].
  intros H. apply andb_true_iff in H as [Hx H]. now rewrite Hx, IH.
Qed.

Lemma filter_flags_all (fl : list string) :
  forallb startsWithDash fl = true -> filter startsWithDash fl = fl.
Proof.
  induction fl as [|x fl IH]; simpl; [reflexivity|].
  intros H. apply andb_true_iff in H as [Hx H]. now rewrite Hx, IH.
Qed.

Lemma normalize_normal (p acc : path) :
  normal_path p = true -> normalize_onto acc p = acc ++ p.
Proof.
  unfold normalize_onto.
  revert acc; induction p as [|s p IH]; intros acc; simpl.
  - now rewrite app_nil_r.
  - intros H. apply andb_true_iff in H as [Hs H].
    unfold norm_step at 2. unfold normal_seg in Hs.
    apply negb_true_iff in Hs. rewrite !orb_false_iff in Hs.
    destruct Hs as [[-> ->] ->]. simpl.
    rewrite IH by assumption. now rewrite <- app_assoc.
Qed.

Lemma path_resolve_dot (dir : path) :
  normal_path dir = true -> path_resolve dir "." = dir.
Proof.
  intros H. unfold path_resolve. simpl.
  unfold normalize_onto. rewrite fold_left_app.
  fold (normalize_onto [] dir). now rewrite (normalize_normal dir [] H).
Qed.

End Dispatch.

(* ================================================================== *)
(** ** The guards of [initProject] *)

Section Guards.

Variable spawn : SpawnCall -> node -> SpawnResult * node.
Variable mkdtemp_suffix : node -> string.
Variable env : Env.

(** C1: with [--force], a target that is the current working directory
    and is not empty makes [initProject] refuse on standard error and exit
    with code 1; the file system is untouched and no process is started.
    Nothing else of the invocation or of the world enters. *)
Theorem init_force_refuses_current_dir fuel rawTarget options w es :
  has "--force" options = true ->
  path_resolve (cwd env) (orDot rawTarget) = cwd env ->
  Fs.lookup (cwd env) (fs w) = Some (Dir es) ->
  only_ignored es = false ->
  initProject spawn mkdtemp_suffix env fuel rawTarget options w =
  (Exit 1%Z,
   mkWorld (fs w) (stdout w)
     (stderr w ++
      [("Refusing to overwrite current directory. Use an empty directory for init."
          ++ nl)%string])
     (spawned w)).
Proof.
  intros Hforce Htarget Hdir Hne. unfold initProject. cbv zeta.
  rewrite Htarget, Hforce, path_eqb_refl.
  rewrite (bind_Ret _ _ _ _ _ (ensureDir_present _ _ _ Hdir)).
  rewrite (bind_Ret _ _ _ _ _ (refuseNonEmpty_force _ _)).
  erewrite bind_Exit; [reflexivity|].
  rewrite (refuseCurrentDir_dir _ _ _ _ Hdir), Hne. reflexivity.
Qed.

(** C2: without [--force], an existing target directory that holds an
    entry other than [.git] and [.DS_Store] makes [initProject] report on
    standard error that the target is not empty and exit with code 1; the
    file system is untouched and no process is started. *)
Theorem init_refuses_non_empty fuel rawTarget options w es :
  has "--force" options = false ->
  Fs.lookup (path_resolve (cwd env) (orDot rawTarget)) (fs w) = Some (Dir es) ->
  only_ignored es = false ->
  initProject spawn mkdtemp_suffix env fuel rawTarget options w =
  (Exit 1%Z,
   mkWorld (fs w) (stdout w)
     (stderr w ++
      [("Target directory is not empty. Use --force to continue: "
          ++ path_str (path_resolve (cwd env) (orDot rawTarget)) ++ nl)%string])
     (spawned w)).
Proof.
  intros Hforce Hdir Hne. unfold initProject. cbv zeta. rewrite Hforce.
  rewrite (bind_Ret _ _ _ _ _ (ensureDir_present _ _ _ Hdir)).
  erewrite bind_Exit; [reflexivity|].
  rewrite (refuseNonEmpty_dir _ _ _ Hdir), Hne. reflexivity.
Qed.

Lemma initTarget_after_flags fl0 fl1 dir fl2 :
  forallb startsWithDash fl0 = true ->
  forallb startsWithDash fl1 = true ->
  fl1 <> [] ->
  forallb startsWithDash fl2 = true ->
  initTarget (fl0 ++ "init" :: fl1 ++ dir :: fl2) = None.
Proof.
  intros H0 H1 Hne H2. unfold initTarget.
  set (args := fl0 ++ "init" :: fl1 ++ dir :: fl2).
  set (f := fun (arg : string) (index : Z) => _).
  assert (Hflag : forall fl, forallb startsWithDash fl = true ->
                  forall x k, In x fl -> f x k = false).
  { intros fl Hfl x k Hx. unfold f.
    rewrite forallb_forall in Hfl. now rewrite (Hfl x Hx). }
  unfold args at 1.
  rewrite find_indexed_app, (find_indexed_none f fl0 0 (Hflag fl0 H0)).
  cbn [find_indexed].
  assert (Hinit : f "init" (0 + Z.of_nat (length fl0))%Z = false).
  { unfold f, args. cbn [startsWithDash String.prefix].
    rewrite Z.add_0_l. now apply prev_of_flags. }
  rewrite Hinit.
  rewrite find_indexed_app, (find_indexed_none f fl1 _ (Hflag fl1 H1)).
  cbn [find_indexed].
  assert (Hdir : f dir (0 + Z.of_nat (length fl0) + 1
                        + Z.of_nat (length fl1))%Z = false).
  { unfold f. destruct (startsWithDash dir); [reflexivity|].
    destruct (exists_last Hne) as (fl1' & z & ->).
    assert (Hz : startsWithDash z = true).
    { rewrite forallb_app in H1. apply andb_true_iff in H1 as [_ H1].
      simpl in H1. now rewrite andb_true_r in H1. }
    replace args with (((fl0 ++ "init" :: fl1') ++ [z]) ++ dir :: fl2).
    2:{ unfold args. repeat rewrite <- app_assoc. reflexivity. }
    replace (0 + Z.of_nat (length fl0) + 1
             + Z.of_nat (length (fl1' ++ [z])) - 1)%Z
      with (Z.of_nat (length ((fl0 ++ "init" :: fl1') ++ [z])) - 1)%Z.
    2:{ repeat (rewrite length_app; cbn [length]). lia. }
    rewrite at_index_prev_snoc. now apply flag_not_init. }
  rewrite Hdir. apply find_indexed_none. now apply Hflag.
Qed.

(** C9: in [init <flags> <dir>], with at least one flag between [init]
    and the directory, the directory is not taken as the target:
    [initProject] runs with no target, which resolves to the current
    working directory. *)
Theorem init_dir_after_flag_is_ignored fuel fl0 fl1 dir fl2 w :
  forallb startsWithDash fl0 = true ->
  forallb startsWithDash fl1 = true ->
  fl1 <> [] ->
  startsWithDash dir = false ->
  forallb startsWithDash fl2 = true ->
  has "-h" (fl0 ++ fl1 ++ fl2) = false ->
  has "--help" (fl0 ++ fl1 ++ fl2) = false ->
  normal_path (cwd env) = true ->
  initTarget (fl0 ++ "init" :: fl1 ++ dir :: fl2) = None
  /\ main spawn mkdtemp_suffix env fuel (fl0 ++ "init" :: fl1 ++ dir :: fl2) w
     = initProject spawn mkdtemp_suffix env fuel None (fl0 ++ fl1 ++ fl2) w
  /\ path_resolve (cwd env) (orDot None) = cwd env.
Proof.
  intros H0 H1 Hne Hdir H2 Hh Hhelp Hcwd.
  pose proof (initTarget_after_flags fl0 fl1 dir fl2 H0 H1 Hne H2) as Ht.
  split; [exact Ht|]. split; [|now apply path_resolve_dot].
  unfold main. rewrite Ht.
  assert (Hopts : filter startsWithDash (fl0 ++ "init" :: fl1 ++ dir :: fl2)
                  = fl0 ++ fl1 ++ fl2).
  { rewrite filter_app. cbn [filter startsWithDash String.prefix].
    rewrite filter_app. cbn [filter]. rewrite Hdir.
    now rewrite !filter_flags_all. }
  rewrite Hopts, Hh, Hhelp. cbn [orb].
  rewrite (find_skips_flags fl0 _ H0). reflexivity.
Qed.

End Guards.

(* ================================================================== *)
(** ** Clearing the target *)

Section Clearing.

Variable spawn : SpawnCall -> node -> SpawnResult * node.
Variable mkdtemp_suffix : node -> string.
Variable env : Env.

Lemma set_fs_same w : set_fs (fs w) w = w.
Proof. now destruct w. Qed.

Lemma clear_loop targetDir names w :
  for_each names
    (fun entry =>
       if String.eqb entry ".git" then ret tt
       else rmSync (join targetDir entry)) w
  = (Ret tt, set_fs (cleared targetDir names (fs w)) w).
Proof.
  revert w; induction names as [|n names IH]; intros w.
  - simpl. unfold ret. now rewrite set_fs_same.
  - cbn [for_each cleared fold_left]. unfold bind at 1.
    destruct (String.eqb n ".git").
    + unfold ret at 1. apply IH.
    + unfold rmSync at 1. rewrite IH. reflexivity.
Qed.

Lemma filter_twice {X} (f g : X -> bool) (l : list X) :
  filter f (filter g l) = filter (fun x => g x && f x) l.
Proof.
  induction l as [|x l IH]; simpl; [reflexivity|].
  destruct (g x); simpl; [|assumption].
  destruct (f x); now rewrite IH.
Qed.

Lemma cleared_lookup targetDir names t es :
  Fs.lookup targetDir t = Some (Dir es) ->
  Fs.lookup targetDir (cleared targetDir names t) =
  Some (Dir (filter (fun e => String.eqb (fst e) ".git"
                              || negb (existsb (String.eqb (fst e)) names))
               es)).
Proof.
  unfold cleared.
  revert t es; induction names as [|n names IH]; intros t es H.
  - simpl. rewrite H. f_equal. f_equal. symmetry.
    apply forallb_filter_id. apply forallb_forall. intros x _.
    apply orb_true_r.
  - cbn [fold_left]. destruct (String.eqb n ".git") eqn:En.
    + rewrite (IH _ _ H). f_equal. f_equal. apply filter_ext.
      intros [m c]. cbn [fst existsb]. apply String.eqb_eq in En. subst n.
      destruct (String.eqb m ".git"); reflexivity.
    + pose proof (rm_child _ n _ _ H) as H'.
      change (targetDir ++ [n]) with (join targetDir n) in H'.
      rewrite (IH _ _ H'). f_equal. f_equal.
      unfold Fs.remove_entry. rewrite filter_twice. apply filter_ext.
      intros [m c]. cbn [fst existsb].
      destruct (String.eqb m n) eqn:Emn; simpl.
      * apply String.eqb_eq in Emn. subst m. now rewrite En.
      * reflexivity.
Qed.

Lemma cleared_all targetDir t es :
  Fs.lookup targetDir t = Some (Dir es) ->
  Fs.lookup targetDir (cleared targetDir (map fst es) t) =
  Some (Dir (filter (fun e => String.eqb (fst e) ".git") es)).
Proof.
  intros H. rewrite (cleared_lookup _ _ _ _ H). f_equal. f_equal.
  apply filter_ext_in. intros [m c] Hin. cbn [fst].
  assert (Hex : existsb (String.eqb m) (map fst es) = true).
  { apply existsb_exists. exists m. split; [|apply String.eqb_refl].
    now apply (in_map fst) in Hin. }
  rewrite Hex. apply orb_false_r.
Qed.

Lemma cleared_diverge targetDir names t p :
  divergeb p targetDir = true ->
  Fs.lookup p (cleared targetDir names t) = Fs.lookup p t.
Proof.
  intros D. unfold cleared.
  revert t; induction names as [|n names IH]; intros t; [reflexivity|].
  cbn [fold_left]. rewrite IH. destruct (String.eqb n ".git"); [reflexivity|].
  apply rm_diverge. now apply divergeb_app_r.
Qed.

Lemma clearTarget_runs targetDir w es :
  Fs.lookup targetDir (fs w) = Some (Dir es) ->
  only_ignored es = false ->
  clearTarget targetDir true false w =
  (Ret tt, set_fs (cleared targetDir (map fst es) (fs w)) w).
Proof.
  intros H Hne. unfold clearTarget, when, andM, notM.
  unfold bind at 1 2 3. rewrite (isDirEmpty_dir _ _ _ H), Hne.
  unfold ret at 1 2. cbn [negb andb].
  unfold bind at 1, readdirSync at 1. rewrite H. apply clear_loop.
Qed.

Lemma lookup_entry_filter_same n es :
  Fs.lookup_entry n (filter (fun e => String.eqb (fst e) n) es)
  = Fs.lookup_entry n es.
Proof.
  induction es as [|[m c] es IH]; simpl; [reflexivity|].
  destruct (String.eqb m n) eqn:E; simpl; now rewrite ?E.
Qed.

(** C3: with [--force], a non-empty target other than the current working
    directory is cleared of every top-level entry except [.git], nothing
    outside the target is touched, and [initProject] goes on from there
    with the materialisation step and the report. *)
Theorem init_force_clears_other_dir fuel rawTarget options w es :
  has "--force" options = true ->
  path_eqb (path_resolve (cwd env) (orDot rawTarget)) (cwd env) = false ->
  Fs.lookup (path_resolve (cwd env) (orDot rawTarget)) (fs w) = Some (Dir es) ->
  only_ignored es = false ->
  let targetDir := path_resolve (cwd env) (orDot rawTarget) in
  let t := cleared targetDir (map fst es) (fs w) in
  initProject spawn mkdtemp_suffix env fuel rawTarget options w
  = (materialize spawn mkdtemp_suffix env fuel targetDir false ;;;
     report env targetDir) (set_fs t w)
  /\ Fs.lookup targetDir t
     = Some (Dir (filter (fun e => String.eqb (fst e) ".git") es))
  /\ (forall p, divergeb p targetDir = true ->
                Fs.lookup p t = Fs.lookup p (fs w)).
Proof.
  intros Hforce Hcur Hdir Hne targetDir t. subst targetDir t.
  split; [|split].
  - unfold initProject. cbv zeta. rewrite Hforce, Hcur.
    rewrite (bind_Ret _ _ _ _ _ (ensureDir_present _ _ _ Hdir)).
    rewrite (bind_Ret _ _ _ _ _ (refuseNonEmpty_force _ _)).
    erewrite bind_Ret
      by (rewrite (refuseCurrentDir_dir _ _ _ _ Hdir), andb_false_r;
          reflexivity).
    now rewrite (bind_Ret _ _ _ _ _ (clearTarget_runs _ _ _ Hdir Hne)).
  - now apply cleared_all.
  - intros p D. now apply cleared_diverge.
Qed.

(** C5, as the code has it: [initProject] on a directory that holds
    [.git] never materialises (no process is started, nothing is copied).
    It reports success and exits 0 when the directory holds nothing but
    [.git] and [.DS_Store]; otherwise the guards decide: without [--force],
    or for the current working directory, it exits 1 with the file system
    untouched, and with [--force] elsewhere it removes the entries other
    than [.git] and then reports success. *)
Theorem rerun_with_git fuel rawTarget options w es :
  Fs.lookup (path_resolve (cwd env) (orDot rawTarget)) (fs w) = Some (Dir es) ->
  Fs.lookup_entry ".git" es <> None ->
  let targetDir := path_resolve (cwd env) (orDot rawTarget) in
  let force := has "--force" options in
  let isCurrentDir := path_eqb targetDir (cwd env) in
  let r := initProject spawn mkdtemp_suffix env fuel rawTarget options w in
  spawned (snd r) = spawned w
  /\ r =
     if only_ignored es then report env targetDir w
     else if negb force then
       (Exit 1%Z,
        put_stderr ("Target directory is not empty. Use --force to continue: "
                      ++ path_str targetDir ++ nl) w)
     else if isCurrentDir then
       (Exit 1%Z,
        put_stderr
          ("Refusing to overwrite current directory. Use an empty directory for init."
             ++ nl) w)
     else report env targetDir
            (set_fs (cleared targetDir (map fst es) (fs w)) w).
Proof.
  intros Hdir Hgit. cbv zeta.
  set (targetDir := path_resolve (cwd env) (orDot rawTarget)) in *.
  match goal with |- _ /\ ?r = ?rhs => assert (Hr : r = rhs) end.
  { unfold initProject. cbv zeta. fold targetDir.
    assert (Hgit0 : Fs.existsb (join targetDir ".git") (fs w) = true).
    { unfold Fs.existsb, join. rewrite lookup_app, Hdir. simpl.
      destruct (Fs.lookup_entry ".git" es); congruence. }
    rewrite (bind_Ret _ _ _ _ _ (ensureDir_present _ _ _ Hdir)).
    destruct (has "--force" options); cbn [negb].
    - rewrite (bind_Ret _ _ _ _ _ (refuseNonEmpty_force _ _)).
      unfold bind at 1.
      rewrite (refuseCurrentDir_dir targetDir _ w es Hdir).
      destruct (only_ignored es) eqn:Hign; cbn [negb andb].
      + rewrite (bind_Ret _ _ _ _ _
                   (clearTarget_skip _ _ _ _ Hdir
                      ltac:(rewrite Hign; reflexivity))).
        now rewrite (bind_Ret _ _ _ _ _
                       (materialize_hasGit _ _ _ _ _ _ _ Hgit0)).
      + destruct (path_eqb targetDir (cwd env)); [reflexivity|].
        rewrite (bind_Ret _ _ _ _ _ (clearTarget_runs _ _ _ Hdir Hign)).
        erewrite bind_Ret; [reflexivity|].
        apply materialize_hasGit. unfold Fs.existsb, join.
        rewrite lookup_app. cbn [fs set_fs].
        rewrite (cleared_all _ _ _ Hdir). simpl.
        rewrite lookup_entry_filter_same.
        destruct (Fs.lookup_entry ".git" es); congruence.
    - unfold bind at 1.
      rewrite (refuseNonEmpty_dir targetDir w es Hdir).
      destruct (only_ignored es) eqn:Hign; [|reflexivity].
      rewrite (bind_Ret _ _ _ _ _ (refuseCurrentDir_noforce _ _ _)).
      rewrite (bind_Ret _ _ _ _ _ (clearTarget_noforce _ _ _)).
      now rewrite (bind_Ret _ _ _ _ _
                     (materialize_hasGit _ _ _ _ _ _ _ Hgit0)). }
  split; [|exact Hr]. rewrite Hr.
  destruct (only_ignored es); [reflexivity|].
  destruct (negb (has "--force" options)); [reflexivity|].
  destruct (path_eqb targetDir (cwd env)); reflexivity.
Qed.

End Clearing.

(* ================================================================== *)
(** ** The filtered copy: what it never touches *)

Section CopyFrame.

Lemma copy_frame_refl tgt w : copy_frame tgt w w.
Proof. unfold copy_frame. tauto. Qed.

Lemma copy_frame_trans tgt w1 w2 w3 :
  copy_frame tgt w1 w2 -> copy_frame tgt w2 w3 -> copy_frame tgt w1 w3.
Proof.
  intros (A1 & B1 & C1 & D1 & E1) (A2 & B2 & C2 & D2 & E2).
  repeat split; try congruence.
  - intros p D. now rewrite D2, D1.
  - intros rel X. now rewrite E2, E1.
Qed.

Lemma copy_frame_child tgt n w w' :
  excluded n = false ->
  copy_frame (tgt ++ [n]) w w' -> copy_frame tgt w w'.
Proof.
  intros Hn (A & B & C & D & E). repeat split; try assumption.
  - intros p Dp. apply D. now apply divergeb_app_r.
  - intros [|m rel] X; [discriminate|].
    destruct (String.eqb m n) eqn:Emn.
    + apply String.eqb_eq in Emn. subst m.
      simpl in X. rewrite Hn in X. simpl in X.
      specialize (E rel X). now rewrite <- !app_assoc in E.
    + apply D. rewrite divergeb_app_same. simpl. now rewrite Emn.
Qed.

Lemma has_excluded_nonempty rel : has_excluded rel = true -> rel <> [].
Proof. now destruct rel. Qed.

Lemma ensureDir_frame tgt w o w' :
  ensureDir tgt w = (o, w') -> copy_frame tgt w w'.
Proof.
  unfold ensureDir, bind, existsSync, Fs.existsb, mkdirSync, ret.
  destruct (Fs.lookup tgt (fs w)) as [v|] eqn:L; cbn [negb].
  - intros [= <- <-]. apply copy_frame_refl.
  - destruct (Fs.mkdirp tgt (fs w)) as [t|] eqn:Mk.
    + intros [= <- <-]. repeat split; cbn [fs set_fs].
      * intros p D. eapply mkdirp_diverge; eauto.
      * intros rel X. rewrite (lookup_below_none _ _ _ L).
        rewrite lookup_app, (mkdirp_fresh _ _ _ L Mk).
        apply has_excluded_nonempty in X. now destruct rel.
    + intros [= <- <-]. apply copy_frame_refl.
Qed.

Lemma put_file_frame dst c t t' :
  Fs.put dst (File c) t = Some t' ->
  (forall es, Fs.lookup dst t <> Some (Dir es)) ->
  forall w, fs w = t -> copy_frame dst w (set_fs t' w).
Proof.
  intros P Hnd w <-. repeat split; cbn [fs set_fs].
  - intros p D. eapply put_diverge; eauto.
  - intros rel X. apply has_excluded_nonempty in X.
    rewrite (lookup_below_file _ _ _ _ (put_lookup_same _ _ _ _ P) X).
    symmetry. destruct (Fs.lookup dst (fs w)) as [[c0|es0]|] eqn:L.
    + eapply lookup_below_file; eauto.
    + now destruct (Hnd es0).
    + now apply lookup_below_none.
Qed.

Lemma copyFileSync_frame src dst w o w' :
  copyFileSync src dst w = (o, w') -> copy_frame dst w w'.
Proof.
  unfold copyFileSync.
  destruct (Fs.lookup src (fs w)) as [[c|es]|];
    try (intros [= <- <-]; apply copy_frame_refl).
  destruct (Fs.lookup dst (fs w)) as [[c0|es0]|] eqn:L;
    try (intros [= <- <-]; apply copy_frame_refl);
    (destruct (Fs.put dst (File c) (fs w)) as [t|] eqn:P;
     [|intros [= <- <-]; apply copy_frame_refl]);
    intros [= <- <-]; eapply put_file_frame; eauto;
    intros es; rewrite L; discriminate.
Qed.

Lemma readdirTypes_same p w o w' : readdirTypes p w = (o, w') -> w' = w.
Proof.
  unfold readdirTypes.
  destruct (Fs.lookup p (fs w)) as [[c|es]|]; now intros [= <- <-].
Qed.

(** Whatever its outcome, [copyDir] leaves alone what [copy_frame] names:
    it writes at no path through an excluded name, at any depth. *)
Lemma copyDir_frame fuel :
  forall src tgt w o w',
    copyDir fuel src tgt w = (o, w') -> copy_frame tgt w w'.
Proof.
  induction fuel as [|fuel IH]; intros src tgt w o w'.
  - simpl. intros [= <- <-]. apply copy_frame_refl.
  - cbn [copyDir].
    apply bind_preserves; [apply copy_frame_trans | apply ensureDir_frame |].
    intros _. apply bind_preserves; [apply copy_frame_trans | |].
    + intros w0 o0 w0' H. rewrite (readdirTypes_same _ _ _ _ H).
      apply copy_frame_refl.
    + intros entries.
      apply for_each_preserves;
        [apply copy_frame_refl | apply copy_frame_trans |].
      intros [n isdir] w0 o0 w0' _. cbn [fst snd].
      destruct (excluded n) eqn:En.
      * intros [= <- <-]. apply copy_frame_refl.
      * intros H. apply (copy_frame_child tgt n _ _ En).
        destruct isdir; [eapply IH | eapply copyFileSync_frame]; exact H.
Qed.

End CopyFrame.

(* ================================================================== *)
(** ** The filtered copy: what it produces *)

Section CopyTotal.

Import Fs.

Lemma put_same q v t : lookup q t = Some v -> put q v t = Some t.
Proof.
  revert t; induction q as [|n q IH]; intros t; simpl.
  - now intros [= ->].
  - destruct t as [c|es]; [discriminate|].
    destruct (lookup_entry n es) as [c|] eqn:E; [|discriminate].
    intros H. rewrite (IH _ H). now rewrite (set_entry_same _ _ _ E).
Qed.

Lemma put_success_any q v v' t t1 :
  put q v t = Some t1 -> exists t2, put q v' t = Some t2.
Proof.
  revert t t1; induction q as [|n q IH]; intros t t1; simpl; [eauto|].
  destruct t as [c|es]; [discriminate|].
  destruct (lookup_entry n es) as [c|].
  - destruct (put q v c) as [c1|] eqn:P; [|discriminate].
    intros _. destruct (IH _ _ P) as [c2 ->]. eauto.
  - destruct q; [eauto | discriminate].
Qed.

Lemma lookup_entry_app n a b :
  lookup_entry n (a ++ b) =
  match lookup_entry n a with Some c => Some c | None => lookup_entry n b end.
Proof.
  induction a as [|[m c] a IH]; simpl; [reflexivity|].
  destruct (String.eqb m n); [reflexivity | apply IH].
Qed.

Lemma prune_entries_app d l :
  prune_entries (d ++ l) = prune_entries d ++ prune_entries l.
Proof. unfold prune_entries. now rewrite map_app, filter_app. Qed.

Lemma prune_entries_names n d :
  In n (map fst (prune_entries d)) -> In n (map fst d).
Proof.
  unfold prune_entries. intros H. apply in_map_iff in H as ([m c] & <- & H).
  apply filter_In in H as [H _]. apply in_map_iff in H as ([m' c'] & E & H).
  injection E as <- _. now apply (in_map fst) in H.
Qed.

Lemma height_child n c es :
  In (n, c) es -> S (height c) <= height (Dir es).
Proof.
  simpl. intros H. apply le_n_S.
  induction es as [|[m c'] es IH]; [contradiction|]. simpl.
  destruct H as [[= -> ->]|H]; [lia|]. specialize (IH H). lia.
Qed.

Lemma wfb_child n c es :
  wfb (Dir es) = true -> In (n, c) es -> wfb c = true.
Proof.
  simpl. intros H Hin. apply andb_true_iff in H as [_ H].
  rewrite forallb_forall in H. exact (H _ Hin).
Qed.

Lemma nodupb_app_cons d n l :
  nodupb (d ++ n :: l) = true -> ~ In n d.
Proof.
  induction d as [|x d IH]; simpl; [tauto|].
  intros H. apply andb_true_iff in H as [Hx H].
  intros [->|Hin]; [|now apply IH].
  apply negb_true_iff in Hx. rewrite existsb_app in Hx. simpl in Hx.
  rewrite String.eqb_refl in Hx. now rewrite orb_true_r in Hx.
Qed.

Lemma lookup_entry_middle d n c l :
  ~ In n (map fst d) -> lookup_entry n (d ++ (n, c) :: l) = Some c.
Proof.
  intros H. rewrite lookup_entry_app.
  apply lookup_entry_none_iff in H. rewrite H. simpl.
  now rewrite String.eqb_refl.
Qed.

Lemma set_fs_set_fs t t' w : set_fs t (set_fs t' w) = set_fs t w.
Proof. reflexivity. Qed.

Lemma ensureDir_ready tgt w es0 :
  tgt <> [] ->
  target_ready tgt (fs w) es0 ->
  exists t1,
    put tgt (Dir es0) (fs w) = Some t1
    /\ ensureDir tgt w = (Ret tt, set_fs t1 w).
Proof.
  intros Hne [H|(-> & Hnone & q & n & pes & -> & Hq)].
  - exists (fs w). split; [now apply put_same|].
    rewrite (ensureDir_present _ _ _ H). now rewrite set_fs_same.
  - assert (Hn : lookup_entry n pes = None).
    { rewrite lookup_app, Hq in Hnone. simpl in Hnone.
      now destruct (lookup_entry n pes). }
    pose proof (mkdirp_fresh_child _ _ _ _ Hq Hn) as Hmk.
    assert (exists t1, put (q ++ [n]) (Dir []) (fs w) = Some t1) as [t1 Ht1].
    { rewrite (put_child _ _ _ _ _ Hq). destruct q as [|m q]; [eauto|].
      eapply put_exists; [discriminate | eassumption]. }
    exists t1. split; [assumption|].
    unfold ensureDir, bind, existsSync, existsb, mkdirSync.
    rewrite Hnone. cbn [negb]. now rewrite Hmk, Ht1.
Qed.

(** With fuel for the height of the source tree, a copy between two
    paths that branch apart returns, and its effect is one write: the
    target directory now holds what it held, followed by the pruned
    source. *)
Lemma copyDir_spec fuel :
  forall src tgt w es es0,
    height (Dir es) <= fuel ->
    wfb (Dir es) = true ->
    divergeb src tgt = true ->
    lookup src (fs w) = Some (Dir es) ->
    target_ready tgt (fs w) es0 ->
    (forall e, In e es0 -> excluded (fst e) = true) ->
    exists t',
      put tgt (Dir (es0 ++ prune_entries es)) (fs w) = Some t'
      /\ copyDir fuel src tgt w = (Ret tt, set_fs t' w).
Proof.
  induction fuel as [|fuel IH]; intros src tgt w es es0 Hh Hwf Hdiv Hsrc Hrdy Hex.
  - simpl in Hh. lia.
  - assert (Htgt : tgt <> []).
    { intros ->. now rewrite divergeb_nil_r in Hdiv. }
    destruct (ensureDir_ready tgt w es0 Htgt Hrdy) as (t1 & Hput1 & Hens).
    cbn [copyDir]. rewrite (bind_Ret _ _ _ _ _ Hens).
    assert (Hsrc1 : lookup src t1 = Some (Dir es)).
    { rewrite (put_diverge _ _ _ _ _ Hput1 Hdiv). exact Hsrc. }
    unfold bind at 1, readdirTypes at 1. cbn [fs set_fs]. rewrite Hsrc1.
    fold dirent.
    set (body := fun entry : string * bool => _).
    assert (Hloop : forall l d ti,
               es = d ++ l ->
               put tgt (Dir (es0 ++ prune_entries d)) (fs w) = Some ti ->
               exists t',
                 put tgt (Dir (es0 ++ prune_entries (d ++ l))) (fs w) = Some t'
                 /\ for_each (map dirent l) body (set_fs ti w)
                    = (Ret tt, set_fs t' w)).
    { induction l as [|[n c] l IHl]; intros d ti Hes Hti.
      - exists ti. rewrite app_nil_r. now split.
      - assert (Hnd : ~ In n (map fst d)).
        { simpl in Hwf. apply andb_true_iff in Hwf as [Hnd _].
          rewrite Hes, map_app in Hnd. now apply nodupb_app_cons in Hnd. }
        assert (Hsplit : d ++ (n, c) :: l = (d ++ [(n, c)]) ++ l)
          by now rewrite <- app_assoc.
        assert (Hin : In (n, c) es).
        { rewrite Hes. apply in_or_app. right. now left. }
        assert (Hsrci : lookup (src ++ [n]) ti = Some c).
        { rewrite lookup_app, (put_diverge _ _ _ _ _ Hti Hdiv), Hsrc.
          simpl. rewrite Hes, (lookup_entry_middle _ _ _ _ Hnd).
          reflexivity. }
        cbn [map for_each]. unfold bind at 1.
        unfold body at 1. change (dirent (n, c)) with (n, is_dir c).
        cbn [fst snd]. destruct (excluded n) eqn:En.
        + unfold ret at 1. rewrite Hsplit. apply IHl; [now rewrite Hes|].
          rewrite prune_entries_app. unfold prune_entries at 2. simpl.
          rewrite En. simpl. now rewrite app_nil_r.
        + set (cur := es0 ++ prune_entries d) in *.
          assert (Hcur : lookup tgt ti = Some (Dir cur))
            by exact (put_lookup_same _ _ _ _ Hti).
          assert (Hfresh : lookup_entry n cur = None).
          { apply lookup_entry_none_iff. unfold cur. rewrite map_app.
            intros Hn. apply in_app_or in Hn as [Hn|Hn].
            - apply in_map_iff in Hn as (e & <- & He).
              rewrite (Hex e He) in En. discriminate.
            - apply Hnd. now apply prune_entries_names. }
          assert (Hnext : forall v t2,
                     put (tgt ++ [n]) v ti = Some t2 ->
                     put tgt (Dir (es0 ++ prune_entries d ++ [(n, v)])) (fs w)
                     = Some t2).
          { intros v t2 H2. rewrite (put_child _ _ _ _ _ Hcur) in H2.
            destruct tgt as [|a tgt']; [congruence|].
            rewrite (put_put _ _ _ _ _ Hti) in H2.
            rewrite (set_entry_fresh _ _ _ Hfresh) in H2.
            unfold cur in H2. now rewrite <- app_assoc in H2. }
          assert (Hprune : forall v, v = prune c ->
                     prune_entries (d ++ [(n, c)]) = prune_entries d ++ [(n, v)]).
          { intros v ->. rewrite prune_entries_app.
            unfold prune_entries at 2. simpl. now rewrite En. }
          destruct c as [s|ces]; cbn [is_dir].
          * (* a file *)
            assert (Hdst : lookup (tgt ++ [n]) ti = None).
            { rewrite lookup_app, Hcur. simpl. now rewrite Hfresh. }
            destruct (put_success_any tgt _ (Dir (set_entry n (File s) cur))
                        _ _ Hti) as [t2' Ht2'].
            assert (exists t2, put (tgt ++ [n]) (File s) ti = Some t2)
              as [t2 Ht2].
            { rewrite (put_child _ _ _ _ _ Hcur).
              destruct tgt as [|a tgt']; [congruence|].
              rewrite (put_put _ _ _ _ _ Hti). eauto. }
            unfold copyFileSync at 1. cbn [fs set_fs]. unfold join.
            rewrite Hsrci, Hdst, Ht2. rewrite set_fs_set_fs.
            rewrite Hsplit. apply IHl; [now rewrite Hes|].
            rewrite (Hprune (File s) eq_refl). now apply Hnext.
          * (* a directory *)
            destruct (IH (src ++ [n]) (tgt ++ [n]) (set_fs ti w) ces [])
              as (t2 & Ht2 & Hcopy).
            -- pose proof (height_child _ _ _ Hin). lia.
            -- eapply wfb_child; eauto.
            -- now rewrite divergeb_app_l; [|apply divergeb_app_r].
            -- exact Hsrci.
            -- right. split; [reflexivity|]. split.
               ++ cbn [fs set_fs]. rewrite lookup_app, Hcur. simpl.
                  now rewrite Hfresh.
               ++ exists tgt, n, cur. now split.
            -- intros e [].
            -- unfold join. rewrite Hcopy. rewrite set_fs_set_fs.
               rewrite Hsplit. apply IHl; [now rewrite Hes|].
               rewrite (Hprune (Dir (prune_entries ces)) eq_refl).
               apply Hnext. exact Ht2. }
    destruct (Hloop es [] t1 eq_refl) as (t' & Ht' & Hrun).
    { unfold prune_entries at 1. simpl. now rewrite app_nil_r. }
    exists t'. split; [exact Ht' | exact Hrun].
Qed.

End CopyTotal.

(* ================================================================== *)
(** ** Materialisation: staged copy and direct clone *)

Section Materialise.

Variable spawn : SpawnCall -> node -> SpawnResult * node.
Variable mkdtemp_suffix : node -> string.
Variable env : Env.

Lemma prune_entries_lookup m es c' :
  Fs.lookup_entry m (prune_entries es) = Some c' ->
  excluded m = false /\ exists c, c' = prune c.
Proof.
  unfold prune_entries.
  induction es as [|[k c] es IH]; simpl; [discriminate|].
  destruct (excluded k) eqn:Ek; simpl; [exact IH|].
  destruct (String.eqb k m) eqn:Ekm; [|exact IH].
  apply String.eqb_eq in Ekm. subst k. intros [= <-]. eauto.
Qed.

(** No path of a pruned tree goes through an excluded name. *)
Lemma prune_no_excluded rel :
  forall t, has_excluded rel = true -> Fs.lookup rel (prune t) = None.
Proof.
  induction rel as [|m rel IH]; intros t; [discriminate|].
  destruct t as [c|es]; [reflexivity|].
  change (prune (Dir es)) with (Dir (prune_entries es)).
  cbn [Fs.lookup has_excluded existsb].
  destruct (Fs.lookup_entry m (prune_entries es)) as [c'|] eqn:E;
    [|reflexivity].
  apply prune_entries_lookup in E as [Hm [c ->]].
  rewrite Hm. cbn [orb]. apply IH.
Qed.

Lemma only_DS_Store_ignored es0 :
  forallb (fun e => String.eqb (fst e) ".DS_Store") es0 = true ->
  only_ignored es0 = true
  /\ Fs.lookup_entry ".git" es0 = None
  /\ (forall e, In e es0 -> excluded (fst e) = true).
Proof.
  intros H. rewrite forallb_forall in H. repeat split.
  - apply forallb_forall. intros e He. rewrite (H e He). apply orb_true_r.
  - apply lookup_entry_none_iff. intros Hin.
    apply in_map_iff in Hin as (e & Hn & He).
    specialize (H e He). rewrite Hn in H. discriminate.
  - intros e He. specialize (H e He). apply String.eqb_eq in H.
    rewrite H. reflexivity.
Qed.

Lemma guards_pass targetDir force isCurrentDir w es (k : M unit) :
  Fs.lookup targetDir (fs w) = Some (Dir es) ->
  only_ignored es = true ->
  (refuseNonEmpty targetDir force ;;;
   refuseCurrentDir targetDir force isCurrentDir ;;;
   clearTarget targetDir force isCurrentDir ;;; k) w
  = k w.
Proof.
  intros Hdir Hign.
  assert (Hg1 : refuseNonEmpty targetDir force w = (Ret tt, w)).
  { destruct force; [reflexivity|].
    now rewrite (refuseNonEmpty_dir _ _ _ Hdir), Hign. }
  assert (Hg2 : refuseCurrentDir targetDir force isCurrentDir w = (Ret tt, w)).
  { destruct force; [|reflexivity].
    now rewrite (refuseCurrentDir_dir _ _ _ _ Hdir), Hign. }
  assert (Hg3 : clearTarget targetDir force isCurrentDir w = (Ret tt, w)).
  { destruct force; [|reflexivity].
    apply (clearTarget_skip _ _ _ _ Hdir). now rewrite Hign. }
  now rewrite (bind_Ret _ _ _ _ _ Hg1), (bind_Ret _ _ _ _ _ Hg2),
    (bind_Ret _ _ _ _ _ Hg3).
Qed.

Lemma materialize_runs fuel targetDir isCurrentDir w es :
  Fs.lookup targetDir (fs w) = Some (Dir es) ->
  only_ignored es = true ->
  Fs.lookup_entry ".git" es = None ->
  materialize spawn mkdtemp_suffix env fuel targetDir isCurrentDir w =
  (if negb isCurrentDir
   then cloneRepo spawn env targetDir
   else
     tempRoot <- mkdtempSync mkdtemp_suffix (tmpdir env) "webclaw-" ;;
     cloneRepo spawn env (join tempRoot "repo") ;;;
     copyDir fuel (join tempRoot "repo") targetDir ;;;
     rmSync tempRoot) w.
Proof.
  intros Hdir Hign Hgit. unfold materialize, when, andM, existsSync.
  unfold bind at 1 2. unfold Fs.existsb, join at 1.
  rewrite lookup_app, Hdir. cbn [Fs.lookup]. rewrite Hgit. cbn [negb].
  now rewrite (isDirEmpty_dir _ _ _ Hdir), Hign.
Qed.

Lemma cloneRepo_ok dst w t2 :
  spawn (mkCall "git" ["clone"; "--depth"; "1"; REPO_URL; path_str dst]
           (cwd env)) (fs w)
  = (mkResult None (Some 0%Z), t2) ->
  cloneRepo spawn env dst w =
  (Ret tt,
   mkWorld t2 (stdout w) (stderr w)
     (spawned w ++
      [mkCall "git" ["clone"; "--depth"; "1"; REPO_URL; path_str dst]
         (cwd env)])).
Proof.
  intros H. unfold cloneRepo. rewrite runCommand_ok; now rewrite H.
Qed.

Lemma mkdtempSync_fresh dir prefix w tes t1 :
  Fs.lookup dir (fs w) = Some (Dir tes) ->
  Fs.lookup (join dir (prefix ++ mkdtemp_suffix (fs w))) (fs w) = None ->
  Fs.put (join dir (prefix ++ mkdtemp_suffix (fs w))) (Dir []) (fs w)
  = Some t1 ->
  mkdtempSync mkdtemp_suffix dir prefix w =
  (Ret (join dir (prefix ++ mkdtemp_suffix (fs w))), set_fs t1 w).
Proof.
  intros Hd Hn Hp. unfold mkdtempSync. cbv zeta. now rewrite Hd, Hn, Hp.
Qed.

(** The staging path: the target is the current working directory, holds
    at most [.DS_Store] entries, and the clone leaves the tree [T] at its
    destination in the fresh temporary directory. *)
Lemma init_staged fuel rawTarget options w es0 tes t1 t2 T :
  let tempRoot :=
    join (tmpdir env) ("webclaw-" ++ mkdtemp_suffix (fs w))%string in
  let call :=
    mkCall "git" ["clone"; "--depth"; "1"; REPO_URL;
                  path_str (join tempRoot "repo")] (cwd env) in
  path_resolve (cwd env) (orDot rawTarget) = cwd env ->
  Fs.lookup (cwd env) (fs w) = Some (Dir es0) ->
  forallb (fun e => String.eqb (fst e) ".DS_Store") es0 = true ->
  Fs.lookup (tmpdir env) (fs w) = Some (Dir tes) ->
  Fs.lookup tempRoot (fs w) = None ->
  divergeb tempRoot (cwd env) = true ->
  Fs.put tempRoot (Dir []) (fs w) = Some t1 ->
  spawn call t1 = (mkResult None (Some 0%Z), t2) ->
  Fs.put (join tempRoot "repo") (Dir T) t1 = Some t2 ->
  wfb (Dir T) = true ->
  height (Dir T) <= fuel ->
  exists t3,
    initProject spawn mkdtemp_suffix env fuel rawTarget options w
    = report env (cwd env)
        (mkWorld t3 (stdout w) (stderr w) (spawned w ++ [call]))
    /\ Fs.lookup (cwd env) t3 = Some (Dir (es0 ++ prune_entries T))
    /\ Fs.lookup (join (cwd env) ".git") t3 = None
    /\ (forall rel, has_excluded rel = true ->
                    Fs.lookup rel (Dir (prune_entries T)) = None)
    /\ Fs.lookup tempRoot t3 = None.
Proof.
  intros tempRoot call Htarget Hdir Hds Htmp Hnone Hdiv Hput1 Hspawn Hput2
         Hwf Hfuel.
  destruct (only_DS_Store_ignored es0 Hds) as (Hign & Hgit & Hex).
  assert (Hcwd2 : Fs.lookup (cwd env) t2 = Some (Dir es0)).
  { rewrite (put_diverge _ _ _ _ _ Hput2), (put_diverge _ _ _ _ _ Hput1);
      [assumption | |].
    - now rewrite divergeb_sym.
    - rewrite divergeb_sym. now apply divergeb_app_l. }
  set (w2 := mkWorld t2 (stdout w) (stderr w) (spawned w ++ [call])).
  destruct (copyDir_spec fuel (join tempRoot "repo") (cwd env) w2 T es0)
    as (t3' & Hput3 & Hcopy); try assumption.
  { now apply divergeb_app_l. }
  { exact (put_lookup_same _ _ _ _ Hput2). }
  { now left. }
  exists (Fs.rm tempRoot t3'). split; [|repeat split].
  - unfold initProject. cbv zeta. rewrite Htarget, path_eqb_refl.
    rewrite (bind_Ret _ _ _ _ _ (ensureDir_present _ _ _ Hdir)).
    rewrite (guards_pass _ _ _ _ _ _ Hdir Hign).
    erewrite bind_Ret; [reflexivity|].
    rewrite (materialize_runs _ _ _ _ _ Hdir Hign Hgit). cbn [negb].
    rewrite (bind_Ret _ _ _ _ _
               (mkdtempSync_fresh _ _ _ _ _ Htmp Hnone Hput1)).
    fold tempRoot.
    rewrite (bind_Ret _ _ _ _ _ (cloneRepo_ok _ (set_fs t1 w) t2 Hspawn)).
    cbn [stdout stderr spawned set_fs]. fold call. fold w2.
    rewrite (bind_Ret _ _ _ _ _ Hcopy). reflexivity.
  - rewrite rm_diverge by now rewrite divergeb_sym.
    exact (put_lookup_same _ _ _ _ Hput3).
  - unfold join. rewrite lookup_app.
    rewrite rm_diverge by now rewrite divergeb_sym.
    rewrite (put_lookup_same _ _ _ _ Hput3). cbn [Fs.lookup].
    rewrite lookup_entry_app, Hgit.
    destruct (Fs.lookup_entry ".git" (prune_entries T)) as [c'|] eqn:E;
      [|reflexivity].
    apply prune_entries_lookup in E as [E _]. discriminate.
  - intros rel. apply (prune_no_excluded rel (Dir T)).
  - apply rm_self. unfold tempRoot, join. now destruct (tmpdir env).
Qed.

(** The direct path: the target is another directory, holding at most
    [.DS_Store] entries once [ensureDir] has run.  What the clone leaves
    is what [initProject] leaves: nothing is copied or filtered. *)
Lemma init_direct fuel rawTarget options w w1 es0 t2 :
  let targetDir := path_resolve (cwd env) (orDot rawTarget) in
  let call :=
    mkCall "git" ["clone"; "--depth"; "1"; REPO_URL; path_str targetDir]
      (cwd env) in
  path_eqb targetDir (cwd env) = false ->
  ensureDir targetDir w = (Ret tt, w1) ->
  Fs.lookup targetDir (fs w1) = Some (Dir es0) ->
  forallb (fun e => String.eqb (fst e) ".DS_Store") es0 = true ->
  spawn call (fs w1) = (mkResult None (Some 0%Z), t2) ->
  initProject spawn mkdtemp_suffix env fuel rawTarget options w
  = report env targetDir
      (mkWorld t2 (stdout w1) (stderr w1) (spawned w1 ++ [call])).
Proof.
  intros targetDir call Hcur Hens Hdir Hds Hspawn.
  destruct (only_DS_Store_ignored es0 Hds) as (Hign & Hgit & _).
  unfold initProject. cbv zeta. fold targetDir. rewrite Hcur.
  rewrite (bind_Ret _ _ _ _ _ Hens).
  rewrite (guards_pass _ _ _ _ _ _ Hdir Hign).
  erewrite bind_Ret; [reflexivity|].
  rewrite (materialize_runs _ _ _ _ _ Hdir Hign Hgit). cbn [negb].
  now apply cloneRepo_ok.
Qed.

(** C10: the staged copy into the current working directory drops [.git]
    (with the other excluded names) at every level, so the project it
    leaves there has no [.git]; the direct clone into another directory
    is left as the clone made it. *)
Theorem staged_copy_drops_git_direct_clone_keeps_it :
  (forall fuel rawTarget options w es0 tes t1 t2 T,
      let tempRoot :=
        join (tmpdir env) ("webclaw-" ++ mkdtemp_suffix (fs w))%string in
      let call :=
        mkCall "git" ["clone"; "--depth"; "1"; REPO_URL;
                      path_str (join tempRoot "repo")] (cwd env) in
      path_resolve (cwd env) (orDot rawTarget) = cwd env ->
      Fs.lookup (cwd env) (fs w) = Some (Dir es0) ->
      forallb (fun e => String.eqb (fst e) ".DS_Store") es0 = true ->
      Fs.lookup (tmpdir env) (fs w) = Some (Dir tes) ->
      Fs.lookup tempRoot (fs w) = None ->
      divergeb tempRoot (cwd env) = true ->
      Fs.put tempRoot (Dir []) (fs w) = Some t1 ->
      spawn call t1 = (mkResult None (Some 0%Z), t2) ->
      Fs.put (join tempRoot "repo") (Dir T) t1 = Some t2 ->
      wfb (Dir T) = true ->
      height (Dir T) <= fuel ->
      exists t3,
        initProject spawn mkdtemp_suffix env fuel rawTarget options w
        = report env (cwd env)
            (mkWorld t3 (stdout w) (stderr w) (spawned w ++ [call]))
        /\ Fs.lookup (cwd env) t3 = Some (Dir (es0 ++ prune_entries T))
        /\ Fs.lookup (join (cwd env) ".git") t3 = None
        /\ (forall rel, has_excluded rel = true ->
                        Fs.lookup rel (Dir (prune_entries T)) = None)
        /\ Fs.lookup tempRoot t3 = None)
  /\ (forall fuel src tgt w o w' rel,
         copyDir fuel src tgt w = (o, w') ->
         has_excluded rel = true ->
         Fs.lookup (tgt ++ rel) (fs w') = Fs.lookup (tgt ++ rel) (fs w))
  /\ (forall fuel rawTarget options w w1 es0 t2,
         let targetDir := path_resolve (cwd env) (orDot rawTarget) in
         let call :=
           mkCall "git" ["clone"; "--depth"; "1"; REPO_URL; path_str targetDir]
             (cwd env) in
         path_eqb targetDir (cwd env) = false ->
         ensureDir targetDir w = (Ret tt, w1) ->
         Fs.lookup targetDir (fs w1) = Some (Dir es0) ->
         forallb (fun e => String.eqb (fst e) ".DS_Store") es0 = true ->
         spawn call (fs w1) = (mkResult None (Some 0%Z), t2) ->
         initProject spawn mkdtemp_suffix env fuel rawTarget options w
         = report env targetDir
             (mkWorld t2 (stdout w1) (stderr w1) (spawned w1 ++ [call]))).
Proof.
  split; [|split].
  - intros. now apply (init_staged fuel rawTarget options w es0 tes t1 t2 T).
  - intros fuel src tgt w o w' rel H X.
    destruct (copyDir_frame fuel src tgt w o w' H) as (_ & _ & _ & _ & E).
    now apply E.
  - intros. now apply (init_direct fuel rawTarget options w w1 es0 t2).
Qed.

End Materialise.

(* ================================================================== *)
(** ** The statements at concrete inputs *)

Section Witnesses.

Import Example.

Lemma init_force_refuses_current_dir_witness :
  fst (initProject children suffix env 0 None ["--force"] used) = Exit 1%Z
  /\ fs (snd (initProject children suffix env 0 None ["--force"] used))
     = fs used
  /\ spawned (snd (initProject children suffix env 0 None ["--force"] used))
     = [].
Proof.
  rewrite (init_force_refuses_current_dir children suffix env 0 None
             ["--force"] used
             [("notes.txt", File "keep me"); (".DS_Store", File "")]
             eq_refl eq_refl eq_refl eq_refl).
  repeat split.
Defined.

Lemma init_refuses_non_empty_witness :
  fst (initProject children suffix env 0 (Some ".") [] used) = Exit 1%Z
  /\ fs (snd (initProject children suffix env 0 (Some ".") [] used)) = fs used.
Proof.
  rewrite (init_refuses_non_empty children suffix env 0 (Some ".") [] used
             [("notes.txt", File "keep me"); (".DS_Store", File "")]
             eq_refl eq_refl eq_refl).
  split; reflexivity.
Defined.

Lemma init_force_clears_other_dir_witness :
  initProject children suffix env 1 (Some "../proj") ["--force"] used
  = (materialize children suffix env 1 ["home"; "proj"] false ;;;
     report env ["home"; "proj"])
      (set_fs (cleared ["home"; "proj"]
                 [".git"; "package.json"; "pnpm-lock.yaml"] (fs used)) used)
  /\ Fs.lookup ["home"; "proj"]
       (cleared ["home"; "proj"] [".git"; "package.json"; "pnpm-lock.yaml"]
          (fs used))
     = Some (Dir [(".git", Dir [("HEAD", File "ref")])]).
Proof.
  destruct (init_force_clears_other_dir children suffix env 1 (Some "../proj")
              ["--force"] used
              [(".git", Dir [("HEAD", File "ref")]); ("package.json", File "{}");
               ("pnpm-lock.yaml", File "")]
              eq_refl eq_refl eq_refl eq_refl) as (H1 & H2 & _).
  split; [exact H1 | exact H2].
Defined.

(** C5, the claim as stated, fails: after [init proj] has cloned into
    [proj], which now holds [.git], a second [init proj] exits with
    code 1. *)
Lemma rerun_exits_1_counterexample :
  Fs.existsb ["home"; "u"; "proj"; ".git"] (fs provisioned) = true
  /\ exit_status
       (fst (initProject children suffix env 1 (Some "proj") [] provisioned))
     = Some 1%Z.
Proof. split; reflexivity. Qed.

Lemma rerun_with_git_witness :
  spawned (snd (initProject children suffix env 1 (Some "proj") [] provisioned))
  = spawned provisioned
  /\ fst (initProject children suffix env 1 (Some "proj") [] provisioned)
     = Exit 1%Z
  /\ fs (snd (initProject children suffix env 1 (Some "proj") [] provisioned))
     = fs provisioned.
Proof.
  destruct (rerun_with_git children suffix env 1 (Some "proj") [] provisioned
              template eq_refl ltac:(discriminate)) as (H1 & H2).
  split; [exact H1|]. rewrite H2. split; reflexivity.
Defined.

Lemma forward_without_project_exits_1_witness :
  fst (main children suffix env 0 ["test"] fresh) = Exit 1%Z
  /\ spawned (snd (main children suffix env 0 ["test"] fresh)) = [].
Proof.
  rewrite (forward_without_project_exits_1 children suffix env 0 ["test"]
             "test" fresh eq_refl eq_refl eq_refl eq_refl eq_refl).
  split; reflexivity.
Defined.

Lemma forwarded_status_propagates_witness :
  main children suffix projEnv 0 ["lint"] used
  = (Exit 3%Z,
     mkWorld (fs used) [] [] [mkCall "pnpm" ["run"; "lint"] ["home"; "proj"]]).
Proof.
  exact (forwarded_status_propagates children suffix projEnv 0 ["lint"] "lint"
           used (mkCall "pnpm" ["run"; "lint"] ["home"; "proj"]) 3%Z
           eq_refl eq_refl eq_refl eq_refl eq_refl eq_refl
           ltac:(discriminate)).
Defined.

Lemma init_dir_after_flag_is_ignored_witness :
  initTarget ["init"; "--force"; "proj"] = None
  /\ main children suffix env 1 ["init"; "--force"; "proj"] used
     = initProject children suffix env 1 None ["--force"] used.
Proof.
  pose proof (init_dir_after_flag_is_ignored children suffix env 1
                [] ["--force"] "proj" [] used
                eq_refl eq_refl ltac:(discriminate) eq_refl eq_refl
                eq_refl eq_refl eq_refl) as (H1 & H2 & _).
  split; [exact H1 | exact H2].
Defined.

Lemma staged_copy_drops_git_direct_clone_keeps_it_witness :
  (exists t3,
      initProject children suffix env 3 None [] fresh
      = report env ["home"; "u"]
          (mkWorld t3 [] []
             [mkCall "git" ["clone"; "--depth"; "1"; REPO_URL;
                            "/tmp/webclaw-Ab12Cd/repo"] ["home"; "u"]])
      /\ Fs.lookup ["home"; "u"] t3 = Some (Dir (prune_entries template))
      /\ Fs.lookup ["home"; "u"; ".git"] t3 = None)
  /\ Fs.existsb ["home"; "u"; "proj"; ".git"] (fs provisioned) = true.
Proof.
  destruct (staged_copy_drops_git_direct_clone_keeps_it children suffix env)
    as (Hstaged & _ & Hdirect).
  split.
  - destruct (Hstaged 3 None [] fresh [] [] staging staged template)
      as (t3 & H1 & H2 & H3 & _); try reflexivity.
    exists t3. repeat split; assumption.
  - unfold provisioned.
    rewrite (Hdirect 1 (Some "proj") [] fresh made [] cloned
               eq_refl eq_refl eq_refl eq_refl eq_refl).
    reflexivity.
Defined.

End Witnesses.


(* ================================================================== *)
(** ** More on the dispatcher *)

Section DispatchMore.

Variable spawn : SpawnCall -> node -> SpawnResult * node.
Variable mkdtemp_suffix : node -> string.
Variable env : Env.

Lemma has_In opt l : has opt l = true <-> In opt l.
Proof.
  unfold has. rewrite existsb_exists. split.
  - intros (x & Hx & E). apply String.eqb_eq in E. now subst.
  - intros H. exists opt. split; [assumption | apply String.eqb_refl].
Qed.

Lemma has_flags opt args :
  startsWithDash opt = true ->
  has opt (filter startsWithDash args) = has opt args.
Proof.
  intros Hopt. apply eq_true_iff_eq. rewrite !has_In, filter_In.
  split; [tauto|]. intros H. now split.
Qed.

Lemma has_not_In opt l : ~ In opt l -> has opt l = false.
Proof.
  intros H. destruct (has opt l) eqn:E; [|reflexivity].
  apply has_In in E. contradiction.
Qed.

Lemma no_help args :
  ~ In "-h" args -> ~ In "--help" args ->
  has "-h" (filter startsWithDash args) = false
  /\ has "--help" (filter startsWithDash args) = false.
Proof.
  intros H1 H2. rewrite !has_flags by reflexivity.
  split; now apply has_not_In.
Qed.

(** X1: a help flag anywhere on the command line wins over every command
    and flag: the usage text goes to standard output and [main] returns;
    nothing is written to standard error or to the file system and no
    process is started. *)
Theorem main_help_wins fuel args w :
  In "-h" args \/ In "--help" args ->
  main spawn mkdtemp_suffix env fuel args w =
  (Ret tt, mkWorld (fs w) (stdout (snd (printHelp w))) (stderr w) (spawned w)).
Proof.
  intros H. unfold main.
  assert (Hh : has "-h" (filter startsWithDash args)
               || has "--help" (filter startsWithDash args) = true).
  { rewrite !has_flags by reflexivity. apply orb_true_iff.
    destruct H as [H|H]; [left | right]; now apply has_In. }
  rewrite Hh. reflexivity.
Qed.

(** X2: a first positional token that is no known command makes [main]
    name it on standard error, print the usage text and exit with code 1;
    the file system is untouched and no process is started. *)
Theorem main_unknown_command fuel args command w :
  find (fun arg => negb (startsWithDash arg)) args = Some command ->
  command <> "" -> command <> "init" -> command <> "doctor" ->
  forwarded command = false ->
  ~ In "-h" args -> ~ In "--help" args ->
  main spawn mkdtemp_suffix env fuel args w =
  (Exit 1%Z,
   mkWorld (fs w) (stdout (snd (printHelp w)))
     (stderr w ++ [("Unknown command: " ++ command ++ nl ++ nl)%string])
     (spawned w)).
Proof.
  intros Hc H0 H1 H2 Hf Hh Hhelp. unfold main.
  destruct (no_help args Hh Hhelp) as [-> ->]. cbn [orb]. rewrite Hc.
  apply String.eqb_neq in H0, H1, H2. rewrite H0, H1, H2, Hf. reflexivity.
Qed.

(** X3: with no positional token, or with an empty string as the first
    one, [main] initialises the current working directory. *)
Theorem main_without_command_inits_cwd fuel args w :
  find (fun arg => negb (startsWithDash arg)) args = None
  \/ find (fun arg => negb (startsWithDash arg)) args = Some "" ->
  ~ In "-h" args -> ~ In "--help" args ->
  normal_path (cwd env) = true ->
  main spawn mkdtemp_suffix env fuel args w
  = initProject spawn mkdtemp_suffix env fuel (Some ".")
      (filter startsWithDash args) w
  /\ path_resolve (cwd env) (orDot (Some ".")) = cwd env.
Proof.
  intros Hc Hh Hhelp Hcwd. split; [|now apply path_resolve_dot].
  unfold main. destruct (no_help args Hh Hhelp) as [-> ->]. cbn [orb].
  destruct Hc as [-> | ->]; reflexivity.
Qed.

Lemma initTarget_direct fl0 dir rest :
  forallb startsWithDash fl0 = true ->
  startsWithDash dir = false ->
  initTarget (fl0 ++ "init" :: dir :: rest) = Some dir.
Proof.
  intros H0 Hdir. unfold initTarget.
  set (args := fl0 ++ "init" :: dir :: rest).
  set (f := fun (arg : string) (index : Z) => _).
  unfold args at 1. rewrite find_indexed_app.
  rewrite (find_indexed_none f fl0 0).
  2:{ intros x k Hx. unfold f. rewrite forallb_forall in H0.
      now rewrite (H0 x Hx). }
  cbn [find_indexed].
  assert (Hinit : f "init" (0 + Z.of_nat (length fl0))%Z = false).
  { unfold f, args. cbn [startsWithDash String.prefix].
    rewrite Z.add_0_l. now apply prev_of_flags. }
  rewrite Hinit.
  assert (Hd : f dir (0 + Z.of_nat (length fl0) + 1)%Z = true).
  { unfold f. rewrite Hdir.
    replace args with ((fl0 ++ ["init"]) ++ dir :: rest)
      by (unfold args; now rewrite <- app_assoc).
    replace (0 + Z.of_nat (length fl0) + 1 - 1)%Z
      with (Z.of_nat (length (fl0 ++ ["init"])) - 1)%Z
      by (rewrite length_app; cbn [length]; lia).
    now rewrite at_index_prev_snoc. }
  now rewrite Hd.
Qed.

(** X4: in [init <dir>], with the directory right after [init], the
    directory is the target, whatever flags come before [init] or after
    the directory. *)
Theorem init_dir_directly_after_init fuel fl0 dir rest w :
  forallb startsWithDash fl0 = true ->
  startsWithDash dir = false ->
  ~ In "-h" (fl0 ++ "init" :: dir :: rest) ->
  ~ In "--help" (fl0 ++ "init" :: dir :: rest) ->
  initTarget (fl0 ++ "init" :: dir :: rest) = Some dir
  /\ main spawn mkdtemp_suffix env fuel (fl0 ++ "init" :: dir :: rest) w
     = initProject spawn mkdtemp_suffix env fuel (Some dir)
         (fl0 ++ filter startsWithDash rest) w.
Proof.
  intros H0 Hdir Hh Hhelp.
  pose proof (initTarget_direct fl0 dir rest H0 Hdir) as Ht.
  split; [exact Ht|]. unfold main.
  destruct (no_help _ Hh Hhelp) as [-> ->]. cbn [orb].
  rewrite (find_skips_flags fl0 _ H0). cbn [find startsWithDash String.prefix negb].
  cbn [String.eqb Ascii.eqb Bool.eqb]. rewrite Ht.
  rewrite filter_app. cbn [filter startsWithDash String.prefix].
  rewrite Hdir. now rewrite (filter_flags_all fl0 H0).
Qed.

(** X5: [doctor] starts exactly one process, [pnpm --version]; it returns
    with the all-clear on standard output when the runtime is at least
    version 20 and that process ends with status 0, and otherwise exits
    with code 1 after one line on standard error for each failed check. *)
Theorem doctor_outcome w :
  let c := mkCall "pnpm" ["--version"] (cwd env) in
  let nodeOk := negb (Z.ltb (nodeMajor env) 20) in
  let pnpmOk :=
    match res_status (fst (spawn c (fs w))) with
    | Some s => Z.eqb s 0
    | None => false
    end in
  exists w',
    doctor spawn env w = (if nodeOk && pnpmOk then Ret tt else Exit 1%Z, w')
    /\ spawned w' = spawned w ++ [c]
    /\ fs w' = snd (spawn c (fs w))
    /\ length (stderr w') =
       length (stderr w) + (if nodeOk then 0 else 1) + (if pnpmOk then 0 else 1)
    /\ stdout w' =
       if nodeOk && pnpmOk
       then stdout w ++ [("Environment looks good." ++ nl)%string]
       else stdout w.
Proof.
  cbv zeta. unfold doctor, bind, spawnSync.
  destruct (spawn (mkCall "pnpm" ["--version"] (cwd env)) (fs w)) as [r t].
  cbn [fst snd].
  destruct (Z.ltb (nodeMajor env) 20);
    destruct (match res_status r with Some s => Z.eqb s 0 | None => false end);
    cbn [negb andb app for_each];
    eexists; (split; [reflexivity|]); cbn; rewrite ?length_app; cbn;
    repeat split; lia.
Qed.

End DispatchMore.

(* ================================================================== *)
(** ** More on the forwarder *)

Section ForwardingMore.

Variable spawn : SpawnCall -> node -> SpawnResult * node.
Variable mkdtemp_suffix : node -> string.
Variable env : Env.

(** X6: a found project makes a forwarded subcommand start exactly one
    process, whatever its end: one of [pnpm], [yarn] and [npm], with the
    subcommand as its last argument, either [<pm> run <script>] in the
    application directory or, in a workspace with pnpm,
    [pnpm -C apps/webclaw <script>] from the current directory.  The
    streams are untouched and the file system is what that process
    leaves. *)
Theorem forwarded_runs_one_script fuel args command w d :
  find (fun arg => negb (startsWithDash arg)) args = Some command ->
  forwarded command = true ->
  ~ In "-h" args -> ~ In "--help" args ->
  detectProjectRoot (cwd env) w = (Ret (Some d), w) ->
  exists c,
    snd (main spawn mkdtemp_suffix env fuel args w)
    = mkWorld (snd (spawn c (fs w))) (stdout w) (stderr w) (spawned w ++ [c])
    /\ In (call_cmd c) ["pnpm"; "yarn"; "npm"]
    /\ last (call_args c) "" = command
    /\ ((call_cwd c = appDir d /\ call_args c = ["run"; command])
        \/ (mode d = monorepo /\ call_cmd c = "pnpm" /\ call_cwd c = cwd env
            /\ call_args c = ["-C"; "apps/webclaw"; command])).
Proof.
  intros Hc Hf Hh Hhelp Hd.
  destruct (no_help args Hh Hhelp) as [Hh' Hhelp'].
  rewrite (main_forwards spawn mkdtemp_suffix env _ _ _ _ Hc Hf Hh' Hhelp').
  destruct (runProjectScript_call spawn env command w d Hd)
    as (c & -> & Hcmd & Hlast & Hdir).
  exists c. rewrite runCommand_eq. destruct c. cbn [snd call_cmd call_args call_cwd] in *.
  repeat split; assumption.
Qed.

(** X7: when the process that [main] starts for a forwarded subcommand
    ends without a numeric status (it was killed by a signal) and without
    a spawn error, [main] returns normally: the CLI then exits with
    code 0. *)
Theorem forwarded_signal_exits_0 fuel args command w c :
  find (fun arg => negb (startsWithDash arg)) args = Some command ->
  forwarded command = true ->
  ~ In "-h" args -> ~ In "--help" args ->
  spawned (snd (main spawn mkdtemp_suffix env fuel args w)) = spawned w ++ [c] ->
  fst (spawn c (fs w)) = mkResult None None ->
  fst (main spawn mkdtemp_suffix env fuel args w) = Ret tt
  /\ exit_status (fst (main spawn mkdtemp_suffix env fuel args w)) = Some 0%Z.
Proof.
  intros Hc Hf Hh Hhelp Hs Hr.
  destruct (no_help args Hh Hhelp) as [Hh' Hhelp'].
  rewrite (forwarded_started spawn mkdtemp_suffix env _ _ _ _ _
             Hc Hf Hh' Hhelp' Hs).
  destruct c as [cmd a dir]. cbn [call_cmd call_args call_cwd].
  rewrite runCommand_eq, Hr. split; reflexivity.
Qed.

(** X8: when the command that [main] tries to start for a forwarded
    subcommand cannot be started ([result.error] is set), [main] throws
    that error, whatever status comes with it; the uncaught error ends
    the process with status 1. *)
Theorem forwarded_spawn_error_throws fuel args command w c e :
  find (fun arg => negb (startsWithDash arg)) args = Some command ->
  forwarded command = true ->
  ~ In "-h" args -> ~ In "--help" args ->
  spawned (snd (main spawn mkdtemp_suffix env fuel args w)) = spawned w ++ [c] ->
  res_error (fst (spawn c (fs w))) = Some e ->
  fst (main spawn mkdtemp_suffix env fuel args w) = Throw (SpawnError e)
  /\ exit_status (fst (main spawn mkdtemp_suffix env fuel args w)) = Some 1%Z.
Proof.
  intros Hc Hf Hh Hhelp Hs Hr.
  destruct (no_help args Hh Hhelp) as [Hh' Hhelp'].
  rewrite (forwarded_started spawn mkdtemp_suffix env _ _ _ _ _
             Hc Hf Hh' Hhelp' Hs).
  destruct c as [cmd a dir]. cbn [call_cmd call_args call_cwd].
  rewrite runCommand_eq, Hr. split; reflexivity.
Qed.

(** X9: a nested application manifest makes the project a workspace even
    when the directory has a manifest of its own, and the package manager
    is read off the lockfiles of the current directory, not of the
    application directory: with [apps/webclaw/package.json] present and no
    [pnpm-lock.yaml] in the current directory, the script is run as
    [<yarn or npm> run <script>] inside [apps/webclaw]. *)
Theorem workspace_script_runs_in_app_dir scriptName w :
  Fs.existsb (join (cwd env ++ ["apps"; "webclaw"]) "package.json") (fs w) = true ->
  Fs.existsb (join (cwd env) "pnpm-lock.yaml") (fs w) = false ->
  runProjectScript spawn env scriptName w
  = runCommand spawn
      (if Fs.existsb (join (cwd env) "yarn.lock") (fs w) then "yarn" else "npm")
      ["run"; scriptName] (cwd env ++ ["apps"; "webclaw"]) w.
Proof.
  intros Happ Hpnpm.
  unfold runProjectScript, detectProjectRoot, detectPackageManager.
  cbv zeta. unfold bind, existsSync, ret.
  rewrite Happ, Hpnpm. cbn [mode appDir].
  now destruct (Fs.existsb (join (cwd env) "yarn.lock") (fs w)).
Qed.

End ForwardingMore.

(* ================================================================== *)
(** ** More on [initProject]: errors and the paths through it *)

Section InitMore.

Variable spawn : SpawnCall -> node -> SpawnResult * node.
Variable mkdtemp_suffix : node -> string.
Variable env : Env.

Lemma isDirEmpty_file targetDir w c :
  Fs.lookup targetDir (fs w) = Some (File c) ->
  isDirEmpty targetDir w = (Throw ENOTDIR, w).
Proof.
  intros H. unfold isDirEmpty, bind, existsSync, Fs.existsb, readdirSync.
  rewrite H. cbn [negb]. now rewrite H.
Qed.

(** X10: a target path that names a regular file makes [initProject] throw
    [ENOTDIR] out of the emptiness check, with or without [--force]; the
    world is left as it was. *)
Theorem init_on_regular_file_throws fuel rawTarget options w c :
  Fs.lookup (path_resolve (cwd env) (orDot rawTarget)) (fs w) = Some (File c) ->
  initProject spawn mkdtemp_suffix env fuel rawTarget options w
  = (Throw ENOTDIR, w).
Proof.
  intros H. unfold initProject. cbv zeta.
  rewrite (bind_Ret _ _ _ _ _ (ensureDir_present _ _ _ H)).
  destruct (has "--force" options).
  - rewrite (bind_Ret _ _ _ _ _ (refuseNonEmpty_force _ _)).
    erewrite bind_Throw; [reflexivity|].
    unfold refuseCurrentDir, when, andM, notM. unfold bind.
    now rewrite (isDirEmpty_file _ _ _ H).
  - erewrite bind_Throw; [reflexivity|].
    unfold refuseNonEmpty, when, andM, notM. cbn [negb]. unfold bind.
    now rewrite (isDirEmpty_file _ _ _ H).
Qed.

(** X11: [ensureDir] returns only with the path present, makes a missing
    path an empty directory, leaves the world alone when the path is
    there (a regular file included), and does nothing when run again. *)
Theorem ensureDir_ensures targetDir w w' :
  ensureDir targetDir w = (Ret tt, w') ->
  Fs.existsb targetDir (fs w') = true
  /\ (Fs.lookup targetDir (fs w) = None ->
      Fs.lookup targetDir (fs w') = Some (Dir []))
  /\ (Fs.lookup targetDir (fs w) <> None -> w' = w)
  /\ ensureDir targetDir w' = (Ret tt, w').
Proof.
  unfold ensureDir at 1. unfold bind, existsSync, Fs.existsb, mkdirSync, ret.
  destruct (Fs.lookup targetDir (fs w)) as [v|] eqn:L; cbn [negb].
  - intros [= <-]. rewrite L. repeat split; try congruence.
    now apply (ensureDir_present _ _ v).
  - destruct (Fs.mkdirp targetDir (fs w)) as [t|] eqn:Mk; [|discriminate].
    intros [= <-]. cbn [fs set_fs].
    pose proof (mkdirp_fresh _ _ _ L Mk) as L'. rewrite L'.
    repeat split; try congruence.
    apply (ensureDir_present _ _ (Dir [])). exact L'.
Qed.

(** X12: when the clone into another directory ends with a status [N]
    other than 0, [initProject] exits with [N]: no success report is
    printed and the file system is what the clone left. *)
Theorem init_direct_clone_failure fuel rawTarget options w w1 es0 N :
  let targetDir := path_resolve (cwd env) (orDot rawTarget) in
  let call :=
    mkCall "git" ["clone"; "--depth"; "1"; REPO_URL; path_str targetDir]
      (cwd env) in
  path_eqb targetDir (cwd env) = false ->
  ensureDir targetDir w = (Ret tt, w1) ->
  Fs.lookup targetDir (fs w1) = Some (Dir es0) ->
  forallb (fun e => String.eqb (fst e) ".DS_Store") es0 = true ->
  fst (spawn call (fs w1)) = mkResult None (Some N) ->
  N <> 0%Z ->
  initProject spawn mkdtemp_suffix env fuel rawTarget options w
  = (Exit N,
     mkWorld (snd (spawn call (fs w1))) (stdout w1) (stderr w1)
       (spawned w1 ++ [call])).
Proof.
  intros targetDir call Hcur Hens Hdir Hds Hspawn HN.
  destruct (only_DS_Store_ignored es0 Hds) as (Hign & Hgit & _).
  unfold initProject. cbv zeta. fold targetDir. rewrite Hcur.
  rewrite (bind_Ret _ _ _ _ _ Hens).
  rewrite (guards_pass _ _ _ _ _ _ Hdir Hign).
  erewrite bind_Exit; [reflexivity|].
  rewrite (materialize_runs _ _ _ _ _ _ _ _ Hdir Hign Hgit). cbn [negb].
  unfold cloneRepo. now apply runCommand_status.
Qed.

(** X13: when the clone into the staging directory ends with a status [N]
    other than 0, [initProject] exits with [N] at once: nothing is copied,
    and the staging directory it has just made is not removed; the file
    system is what the clone left. *)
Theorem init_staged_clone_failure fuel rawTarget options w es0 tes t1 N :
  let tempRoot :=
    join (tmpdir env) ("webclaw-" ++ mkdtemp_suffix (fs w))%string in
  let call :=
    mkCall "git" ["clone"; "--depth"; "1"; REPO_URL;
                  path_str (join tempRoot "repo")] (cwd env) in
  path_resolve (cwd env) (orDot rawTarget) = cwd env ->
  Fs.lookup (cwd env) (fs w) = Some (Dir es0) ->
  forallb (fun e => String.eqb (fst e) ".DS_Store") es0 = true ->
  Fs.lookup (tmpdir env) (fs w) = Some (Dir tes) ->
  Fs.lookup tempRoot (fs w) = None ->
  Fs.put tempRoot (Dir []) (fs w) = Some t1 ->
  fst (spawn call t1) = mkResult None (Some N) ->
  N <> 0%Z ->
  initProject spawn mkdtemp_suffix env fuel rawTarget options w
  = (Exit N,
     mkWorld (snd (spawn call t1)) (stdout w) (stderr w) (spawned w ++ [call]))
  /\ Fs.lookup tempRoot t1 = Some (Dir []).
Proof.
  intros tempRoot call Htarget Hdir Hds Htmp Hnone Hput1 Hspawn HN.
  destruct (only_DS_Store_ignored es0 Hds) as (Hign & Hgit & _).
  split; [|exact (put_lookup_same _ _ _ _ Hput1)].
  unfold initProject. cbv zeta. rewrite Htarget, path_eqb_refl.
  rewrite (bind_Ret _ _ _ _ _ (ensureDir_present _ _ _ Hdir)).
  rewrite (guards_pass _ _ _ _ _ _ Hdir Hign).
  erewrite bind_Exit; [reflexivity|].
  rewrite (materialize_runs _ _ _ _ _ _ _ _ Hdir Hign Hgit). cbn [negb].
  rewrite (bind_Ret _ _ _ _ _
             (mkdtempSync_fresh _ _ _ _ _ _ Htmp Hnone Hput1)).
  fold tempRoot. erewrite bind_Exit; [reflexivity|].
  unfold cloneRepo.
  exact (runCommand_status spawn _ _ _ (set_fs t1 w) N Hspawn HN).
Qed.

(** X14: a target that does not exist is made, with its missing ancestors,
    as an empty directory before anything else; when it is not the current
    working directory the template is then cloned straight into it. *)
Theorem init_missing_target_is_created fuel rawTarget options w t1 t2 :
  let targetDir := path_resolve (cwd env) (orDot rawTarget) in
  let call :=
    mkCall "git" ["clone"; "--depth"; "1"; REPO_URL; path_str targetDir]
      (cwd env) in
  path_eqb targetDir (cwd env) = false ->
  Fs.lookup targetDir (fs w) = None ->
  Fs.mkdirp targetDir (fs w) = Some t1 ->
  spawn call t1 = (mkResult None (Some 0%Z), t2) ->
  Fs.lookup targetDir t1 = Some (Dir [])
  /\ initProject spawn mkdtemp_suffix env fuel rawTarget options w
     = report env targetDir
         (mkWorld t2 (stdout w) (stderr w) (spawned w ++ [call])).
Proof.
  intros targetDir call Hcur Hnone Hmk Hspawn.
  pose proof (mkdirp_fresh _ _ _ Hnone Hmk) as Hdir.
  split; [exact Hdir|].
  apply (init_direct spawn mkdtemp_suffix env fuel rawTarget options w
           (set_fs t1 w) [] t2); try assumption; try reflexivity.
  unfold ensureDir, bind, existsSync, Fs.existsb, mkdirSync.
  fold targetDir. rewrite Hnone. cbn [negb]. now rewrite Hmk.
Qed.

Lemma filter_git_none es :
  Fs.lookup_entry ".git" es = None ->
  filter (fun e : string * node => String.eqb (fst e) ".git") es = [].
Proof.
  induction es as [|[m c] es IH]; simpl; [reflexivity|].
  destruct (String.eqb m ".git"); [discriminate | exact IH].
Qed.

(** X15: with [--force], a non-empty directory other than the current
    working directory that holds no [.git] is emptied and the template is
    then cloned straight into it. *)
Theorem init_force_empties_then_clones fuel rawTarget options w es t2 :
  let targetDir := path_resolve (cwd env) (orDot rawTarget) in
  let call :=
    mkCall "git" ["clone"; "--depth"; "1"; REPO_URL; path_str targetDir]
      (cwd env) in
  let t := cleared targetDir (map fst es) (fs w) in
  has "--force" options = true ->
  path_eqb targetDir (cwd env) = false ->
  Fs.lookup targetDir (fs w) = Some (Dir es) ->
  only_ignored es = false ->
  Fs.lookup_entry ".git" es = None ->
  spawn call t = (mkResult None (Some 0%Z), t2) ->
  Fs.lookup targetDir t = Some (Dir [])
  /\ initProject spawn mkdtemp_suffix env fuel rawTarget options w
     = report env targetDir
         (mkWorld t2 (stdout w) (stderr w) (spawned w ++ [call])).
Proof.
  intros targetDir call t Hforce Hcur Hdir Hne Hgit Hspawn.
  assert (Ht : Fs.lookup targetDir t = Some (Dir [])).
  { unfold t. rewrite (cleared_all _ _ _ Hdir). now rewrite filter_git_none. }
  split; [exact Ht|].
  unfold initProject. cbv zeta. fold targetDir. rewrite Hforce, Hcur.
  rewrite (bind_Ret _ _ _ _ _ (ensureDir_present _ _ _ Hdir)).
  rewrite (bind_Ret _ _ _ _ _ (refuseNonEmpty_force _ _)).
  erewrite bind_Ret
    by (rewrite (refuseCurrentDir_dir _ _ _ _ Hdir), andb_false_r;
        reflexivity).
  rewrite (bind_Ret _ _ _ _ _ (clearTarget_runs _ _ _ Hdir Hne)). fold t.
  erewrite bind_Ret; [reflexivity|].
  rewrite (materialize_runs spawn mkdtemp_suffix env fuel targetDir false
             (set_fs t w) [] Ht eq_refl eq_refl).
  cbn [negb].
  exact (cloneRepo_ok spawn env targetDir (set_fs t w) t2 Hspawn).
Qed.

End InitMore.

(* ================================================================== *)
(** ** What [initProject] never does *)

Section InitEffect.

Variable spawn : SpawnCall -> node -> SpawnResult * node.
Variable mkdtemp_suffix : node -> string.
Variable env : Env.

Lemma bind_inv {A B} (m : M A) (k : A -> M B) w o w' :
  bind m k w = (o, w') ->
  (exists a w1, m w = (Ret a, w1) /\ k a w1 = (o, w'))
  \/ (exists o1, m w = (o1, w') /\ fails o1 = true /\ fails o = true).
Proof.
  unfold bind. destruct (m w) as [[a|c|e|] w1] eqn:E; intros H.
  - left. eauto.
  - right. injection H as <- <-. exists (Exit c). now repeat split.
  - right. injection H as <- <-. exists (Throw e). now repeat split.
  - right. injection H as <- <-. exists OutOfFuel. now repeat split.
Qed.

Lemma quiet_local_refl targetDir tmp w : quiet_local targetDir tmp w w.
Proof. unfold quiet_local, local_writes. tauto. Qed.

Lemma quiet_local_trans targetDir tmp w1 w2 w3 :
  quiet_local targetDir tmp w1 w2 -> quiet_local targetDir tmp w2 w3 ->
  quiet_local targetDir tmp w1 w3.
Proof.
  intros (A1 & B1 & C1) (A2 & B2 & C2). repeat split; try congruence.
  intros p D1 D2. now rewrite C2, C1.
Qed.

Lemma quiet_local_fs targetDir tmp w w' :
  stdout w' = stdout w -> spawned w' = spawned w -> fs w' = fs w ->
  quiet_local targetDir tmp w w'.
Proof.
  intros A B C. repeat split; try assumption. intros p _ _. now rewrite C.
Qed.

Lemma isDirEmpty_same targetDir w o w' :
  isDirEmpty targetDir w = (o, w') -> w' = w.
Proof.
  unfold isDirEmpty, bind, existsSync, readdirSync, ret.
  destruct (Fs.existsb targetDir (fs w)); cbn [negb]; [|now intros [= <- <-]].
  destruct (Fs.lookup targetDir (fs w)) as [[c|es]|]; now intros [= <- <-].
Qed.

(** A guard: a condition that only reads, and a body. *)
Lemma when_inv (cond : M bool) (body : M unit) w o w' :
  (forall w0 o0 w0', cond w0 = (o0, w0') -> w0' = w0) ->
  when cond body w = (o, w') ->
  w' = w \/ body w = (o, w').
Proof.
  intros Hread H. unfold when in H. apply bind_inv in H.
  destruct H as [(b & w1 & Hc & Hk) | (o1 & Hc & _)].
  - rewrite (Hread _ _ _ Hc) in Hk. destruct b; [now right|].
    injection Hk as <- <-. now left.
  - left. exact (Hread _ _ _ Hc).
Qed.

Lemma guard_cond_reads targetDir (b c : bool) w o w' :
  andM b (notEmpty <- notM (isDirEmpty targetDir) ;; ret (notEmpty && c)) w
  = (o, w') -> w' = w.
Proof.
  unfold andM, notM. destruct b; [|now intros [= <- <-]].
  revert w o w'. apply bind_preserves; [congruence | |].
  - apply bind_preserves; [congruence | apply isDirEmpty_same |].
    intros a w o w'. now intros [= <- <-].
  - intros a w o w'. now intros [= <- <-].
Qed.

Lemma refuse_body_quiet targetDir tmp s w (o : outcome unit) w' :
  (write_stderr s ;;; exit 1%Z) w = (o, w') ->
  quiet_local targetDir tmp w w'.
Proof. intros [= <- <-]. now apply quiet_local_fs. Qed.

Lemma ensureDir_quiet targetDir tmp w o w' :
  ensureDir targetDir w = (o, w') -> quiet_local targetDir tmp w w'.
Proof.
  intros H. destruct (ensureDir_frame _ _ _ _ H) as (A & _ & C & D & _).
  repeat split; try assumption. intros p Dp _. now apply D.
Qed.

Lemma refuseNonEmpty_quiet targetDir tmp force w o w' :
  refuseNonEmpty targetDir force w = (o, w') ->
  quiet_local targetDir tmp w w'.
Proof.
  intros H. unfold refuseNonEmpty in H. apply when_inv in H.
  - destruct H as [-> | H]; [apply quiet_local_refl|].
    eapply refuse_body_quiet; eauto.
  - unfold andM, notM. destruct (negb force); [|now intros ? ? ? [= <- <-]].
    apply bind_preserves; [congruence | apply isDirEmpty_same |].
    intros a w0 o0 w0'. now intros [= <- <-].
Qed.

Lemma refuseCurrentDir_quiet targetDir tmp force isCurrentDir w o w' :
  refuseCurrentDir targetDir force isCurrentDir w = (o, w') ->
  quiet_local targetDir tmp w w'.
Proof.
  intros H. unfold refuseCurrentDir in H. apply when_inv in H.
  - destruct H as [-> | H]; [apply quiet_local_refl|].
    eapply refuse_body_quiet; eauto.
  - intros w0 o0 w0'. apply guard_cond_reads.
Qed.

Lemma clearTarget_quiet targetDir tmp force isCurrentDir w o w' :
  clearTarget targetDir force isCurrentDir w = (o, w') ->
  quiet_local targetDir tmp w w'.
Proof.
  intros H. unfold clearTarget in H. apply when_inv in H.
  - destruct H as [-> | H]; [apply quiet_local_refl|].
    unfold bind at 1, readdirSync at 1 in H.
    destruct (Fs.lookup targetDir (fs w)) as [[c|es]|];
      try (injection H as <- <-; apply quiet_local_refl).
    rewrite clear_loop in H. injection H as <- <-.
    repeat split. intros p D _. cbn [fs set_fs]. now apply cleared_diverge.
  - intros w0 o0 w0'. apply guard_cond_reads.
Qed.

Lemma mkdtempSync_inv dir prefix w p w' :
  mkdtempSync mkdtemp_suffix dir prefix w = (Ret p, w') ->
  p = join dir (prefix ++ mkdtemp_suffix (fs w))%string
  /\ exists t, Fs.put p (Dir []) (fs w) = Some t /\ w' = set_fs t w.
Proof.
  unfold mkdtempSync. cbv zeta.
  destruct (Fs.lookup dir (fs w)) as [[c|es]|]; try discriminate;
    try (destruct (Fs.lookup _ (fs w)); discriminate).
  destruct (Fs.lookup _ (fs w)); [discriminate|].
  destruct (Fs.put _ (Dir []) (fs w)) as [t|] eqn:P; [|discriminate].
  intros [= <- <-]. split; [reflexivity|]. eauto.
Qed.

Lemma mkdtempSync_fail_same dir prefix w (o : outcome path) w' :
  mkdtempSync mkdtemp_suffix dir prefix w = (o, w') ->
  fails o = true -> w' = w.
Proof.
  unfold mkdtempSync. cbv zeta.
  destruct (Fs.lookup dir (fs w)) as [[c|es]|];
    try (intros [= <- <-]; reflexivity);
    try (destruct (Fs.lookup _ (fs w)); intros [= <- <-]; reflexivity).
  destruct (Fs.lookup _ (fs w)); [intros [= <- <-]; reflexivity|].
  destruct (Fs.put _ (Dir []) (fs w)); intros [= <- <-]; [discriminate|].
  reflexivity.
Qed.

Lemma cloneRepo_clone dst w o w' :
  cloneRepo spawn env dst w = (o, w') -> one_clone spawn (cwd env) w w'.
Proof.
  unfold cloneRepo. rewrite runCommand_eq. intros [= _ <-].
  split; [reflexivity|]. exists dst. split; reflexivity.
Qed.

Lemma copyDir_quiet fuel src targetDir tmp w o w' :
  copyDir fuel src targetDir w = (o, w') -> quiet_local targetDir tmp w w'.
Proof.
  intros H. destruct (copyDir_frame _ _ _ _ _ _ H) as (A & _ & C & D & _).
  repeat split; try assumption. intros p Dp _. now apply D.
Qed.

Lemma rm_temp_quiet targetDir dir name w :
  quiet_local targetDir dir w (set_fs (Fs.rm (join dir name) (fs w)) w).
Proof.
  repeat split. intros p _ D. cbn [fs set_fs]. apply rm_diverge.
  now apply divergeb_app_r.
Qed.

Lemma materialize_effect fuel targetDir isCurrentDir w o w' :
  materialize spawn mkdtemp_suffix env fuel targetDir isCurrentDir w = (o, w') ->
  init_effect spawn env targetDir w w'.
Proof.
  intros H. unfold materialize in H. apply when_inv in H.
  2:{ apply bind_preserves; [congruence | now intros ? ? ? [= <- <-] |].
      intros hasGit. unfold andM. destruct (negb hasGit).
      - apply isDirEmpty_same.
      - now intros ? ? ? [= <- <-]. }
  destruct H as [-> | H]; [left; apply quiet_local_refl|].
  destruct (negb isCurrentDir).
  - right. exists w, w'. split; [apply quiet_local_refl|].
    split; [eapply cloneRepo_clone; eauto | apply quiet_local_refl].
  - apply bind_inv in H.
    destruct H as [(tempRoot & w1 & Hmk & H) | (o1 & Hmk & Hf & _)].
    2:{ left. rewrite (mkdtempSync_fail_same _ _ _ _ _ Hmk Hf).
        apply quiet_local_refl. }
    apply mkdtempSync_inv in Hmk as (Hroot & t & Hput & ->).
    assert (Q1 : quiet_local targetDir (tmpdir env) w (set_fs t w)).
    { repeat split. intros p _ D. cbn [fs set_fs].
      eapply put_diverge; [eassumption|]. rewrite Hroot.
      now apply divergeb_app_r. }
    right. exists (set_fs t w).
    apply bind_inv in H.
    destruct H as [([] & w2 & Hclone & H) | (o1 & Hclone & _)].
    2:{ exists w'. split; [exact Q1|].
        split; [eapply cloneRepo_clone; eauto | apply quiet_local_refl]. }
    exists w2. split; [exact Q1|].
    split; [eapply cloneRepo_clone; eauto|].
    apply bind_inv in H.
    destruct H as [([] & w3 & Hcopy & H) | (o1 & Hcopy & _)].
    2:{ eapply copyDir_quiet; eauto. }
    eapply quiet_local_trans; [eapply copyDir_quiet; eauto|].
    unfold rmSync in H. injection H as _ <-. rewrite Hroot.
    apply rm_temp_quiet.
Qed.

Lemma init_effect_after targetDir w w1 w2 :
  quiet_local targetDir (tmpdir env) w w1 ->
  init_effect spawn env targetDir w1 w2 ->
  init_effect spawn env targetDir w w2.
Proof.
  intros Q [Q'|(wa & wb & Qa & C & Qb)].
  - left. eapply quiet_local_trans; eauto.
  - right. exists wa, wb. split; [eapply quiet_local_trans; eauto|].
    now split.
Qed.

(** The whole of [initProject]: quiet local steps with at most one clone
    among them, and then, on a normal return only, the report. *)
Lemma initProject_effect fuel rawTarget options w o w' :
  initProject spawn mkdtemp_suffix env fuel rawTarget options w = (o, w') ->
  exists w5,
    init_effect spawn env (path_resolve (cwd env) (orDot rawTarget)) w w5
    /\ ((fails o = true /\ w' = w5)
        \/ (o = Ret tt
            /\ w' = snd (report env (path_resolve (cwd env) (orDot rawTarget))
                           w5))).
Proof.
  unfold initProject. cbv zeta.
  set (targetDir := path_resolve (cwd env) (orDot rawTarget)).
  set (tmp := tmpdir env). intros H.
  apply bind_inv in H.
  destruct H as [([] & w1 & H1 & H) | (o1 & H1 & _ & Hf)].
  2:{ exists w'. split; [left; eapply ensureDir_quiet; eauto | now left]. }
  pose proof (ensureDir_quiet _ tmp _ _ _ H1) as Q1.
  apply bind_inv in H.
  destruct H as [([] & w2 & H2 & H) | (o1 & H2 & _ & Hf)].
  2:{ exists w'. split; [|now left]. left.
      eapply quiet_local_trans; [exact Q1|].
      eapply refuseNonEmpty_quiet; eauto. }
  pose proof (quiet_local_trans _ _ _ _ _ Q1
                (refuseNonEmpty_quiet _ tmp _ _ _ _ H2)) as Q2.
  apply bind_inv in H.
  destruct H as [([] & w3 & H3 & H) | (o1 & H3 & _ & Hf)].
  2:{ exists w'. split; [|now left]. left.
      eapply quiet_local_trans; [exact Q2|].
      eapply refuseCurrentDir_quiet; eauto. }
  pose proof (quiet_local_trans _ _ _ _ _ Q2
                (refuseCurrentDir_quiet _ tmp _ _ _ _ _ H3)) as Q3.
  apply bind_inv in H.
  destruct H as [([] & w4 & H4 & H) | (o1 & H4 & _ & Hf)].
  2:{ exists w'. split; [|now left]. left.
      eapply quiet_local_trans; [exact Q3|].
      eapply clearTarget_quiet; eauto. }
  pose proof (quiet_local_trans _ _ _ _ _ Q3
                (clearTarget_quiet _ tmp _ _ _ _ _ H4)) as Q4.
  apply bind_inv in H.
  destruct H as [([] & w5 & H5 & H) | (o1 & H5 & _ & Hf)].
  2:{ exists w'. split; [|now left].
      eapply init_effect_after; [exact Q4|].
      eapply materialize_effect; eauto. }
  exists w5. split.
  - eapply init_effect_after; [exact Q4|]. eapply materialize_effect; eauto.
  - right. rewrite report_Ret in H. injection H as <- <-. now split.
Qed.

End InitEffect.

Section InitNever.

Variable spawn : SpawnCall -> node -> SpawnResult * node.
Variable mkdtemp_suffix : node -> string.
Variable env : Env.

(** X16: [initProject] itself writes only at the target, below it, above
    it, or in the temporary directory: at a path [p] that branches off
    both, whatever the outcome, the file system is as before, or differs
    by what the one [git clone] did there. *)
Theorem init_writes_stay_local fuel rawTarget options w o w' p :
  divergeb p (path_resolve (cwd env) (orDot rawTarget)) = true ->
  divergeb p (tmpdir env) = true ->
  initProject spawn mkdtemp_suffix env fuel rawTarget options w = (o, w') ->
  Fs.lookup p (fs w') = Fs.lookup p (fs w)
  \/ exists dst t1,
      Fs.lookup p t1 = Fs.lookup p (fs w)
      /\ Fs.lookup p (fs w') =
         Fs.lookup p
           (snd (spawn (mkCall "git" ["clone"; "--depth"; "1"; REPO_URL;
                                      path_str dst] (cwd env)) t1)).
Proof.
  intros D1 D2 H.
  destruct (initProject_effect spawn mkdtemp_suffix env _ _ _ _ _ _ H)
    as (w5 & E & Hw).
  assert (Hfs : fs w' = fs w5).
  { destruct Hw as [[_ ->] | [_ ->]]; reflexivity. }
  rewrite Hfs.
  destruct E as [(_ & _ & L) | (w1 & w2 & (_ & _ & L1) & (_ & dst & _ & Hc)
                                & (_ & _ & L2))].
  - left. now apply L.
  - right. exists dst, (fs w1). split; [now apply L1|].
    rewrite <- Hc. now apply L2.
Qed.

(** X17: the only process [initProject] ever starts is a [git clone] of
    the template, run from the current working directory, and it starts
    at most one, whatever the outcome. *)
Theorem init_starts_at_most_one_clone fuel rawTarget options w o w' :
  initProject spawn mkdtemp_suffix env fuel rawTarget options w = (o, w') ->
  spawned w' = spawned w
  \/ exists dst,
      spawned w' =
      spawned w ++
      [mkCall "git" ["clone"; "--depth"; "1"; REPO_URL; path_str dst]
         (cwd env)].
Proof.
  intros H.
  destruct (initProject_effect spawn mkdtemp_suffix env _ _ _ _ _ _ H)
    as (w5 & E & Hw).
  assert (Hsp : spawned w' = spawned w5).
  { destruct Hw as [[_ ->] | [_ ->]]; reflexivity. }
  rewrite Hsp.
  destruct E as [(_ & S & _) | (w1 & w2 & (_ & S1 & _) & (_ & dst & Hc & _)
                                & (_ & S2 & _))].
  - now left.
  - right. exists dst. now rewrite S2, Hc, S1.
Qed.

Lemma report_stdout targetDir w w5 :
  stdout w5 = stdout w ->
  stdout (snd (report env targetDir w5)) = stdout (snd (report env targetDir w)).
Proof.
  intros H. unfold report, bind, write_stdout, put_stdout. cbn.
  now rewrite H.
Qed.

(** X18: [initProject] prints its success report exactly when it returns
    normally: on an exit or a thrown error nothing has been written to
    standard output. *)
Theorem init_reports_iff_returns fuel rawTarget options w o w' :
  initProject spawn mkdtemp_suffix env fuel rawTarget options w = (o, w') ->
  (o = Ret tt
   /\ stdout w' =
      stdout (snd (report env (path_resolve (cwd env) (orDot rawTarget)) w)))
  \/ (fails o = true /\ stdout w' = stdout w).
Proof.
  intros H.
  destruct (initProject_effect spawn mkdtemp_suffix env _ _ _ _ _ _ H)
    as (w5 & E & Hw).
  assert (Hout : stdout w5 = stdout w).
  { destruct E as [(S & _) | (w1 & w2 & (S1 & _) & (Sc & _) & (S2 & _))];
      congruence. }
  destruct Hw as [[Hf ->] | [-> ->]].
  - right. now split.
  - left. split; [reflexivity|]. now apply report_stdout.
Qed.

End InitNever.

(* ================================================================== *)
(** ** More on the filtered copy *)

Section CopyMore.

(** X19: with fuel for the height of a well-formed source directory, a
    copy into an existing directory that branches off the source returns
    normally; the target then holds what it held, followed by the source
    without the excluded names at any level; the source and every path
    that branches off the target are as before. *)
Theorem copyDir_copies_pruned_tree fuel src tgt w es es0 :
  height (Dir es) <= fuel ->
  wfb (Dir es) = true ->
  divergeb src tgt = true ->
  Fs.lookup src (fs w) = Some (Dir es) ->
  Fs.lookup tgt (fs w) = Some (Dir es0) ->
  forallb (fun e => excluded (fst e)) es0 = true ->
  exists t',
    copyDir fuel src tgt w = (Ret tt, set_fs t' w)
    /\ Fs.lookup tgt t' = Some (Dir (es0 ++ prune_entries es))
    /\ Fs.lookup src t' = Some (Dir es)
    /\ (forall p, divergeb p tgt = true -> Fs.lookup p t' = Fs.lookup p (fs w)).
Proof.
  intros Hh Hwf Hdiv Hsrc Htgt Hex.
  destruct (copyDir_spec fuel src tgt w es es0) as (t' & Hput & Hcopy);
    try assumption.
  { now left. }
  { rewrite forallb_forall in Hex. exact Hex. }
  exists t'. split; [exact Hcopy|]. split; [|split].
  - exact (put_lookup_same _ _ _ _ Hput).
  - rewrite (put_diverge _ _ _ _ _ Hput Hdiv). exact Hsrc.
  - intros p D. exact (put_diverge _ _ _ _ _ Hput D).
Qed.


End CopyMore.

(* ================================================================== *)
(** ** The redirect decision *)

Section RedirectFacts.

Variable isMissingGatewayAuth : string -> bool.

(** X21: [shouldRedirectToConnect] answers yes only when no redirect is
    under way or due, the active session is not known to be missing, and
    the first error that is not null is a non-empty text that
    [isMissingGatewayAuth] accepts; and it answers yes in each such
    case. *)
Theorem shouldRedirectToConnect_true_iff (i : UseChatErrorStateInput) :
  shouldRedirectToConnect isMissingGatewayAuth i = true <->
  isRedirecting i = false /\ shouldRedirectToNew i = false
  /\ (sessionsReady i = true -> activeExists i = true)
  /\ exists text,
      nullish (nullish (sessionsError i) (historyError i))
        (gatewayStatusError i) = Some text
      /\ text <> "" /\ isMissingGatewayAuth text = true.
Proof.
  unfold shouldRedirectToConnect. cbv zeta.
  destruct (isRedirecting i), (shouldRedirectToNew i); cbn [orb];
    try (split; [discriminate | intros (A & B & _); discriminate]).
  destruct (sessionsReady i), (activeExists i); cbn [andb negb];
    try (split; [discriminate | intros (_ & _ & C & _); discriminate (C eq_refl)]).
  all: destruct (nullish _ _) as [text|];
    [|split; [discriminate | intros (_ & _ & _ & t & E & _); discriminate]].
  all: destruct (String.eqb text "") eqn:Et.
  all: try (apply String.eqb_eq in Et; split;
            [discriminate
            | intros (_ & _ & _ & t & [= <-] & Hne & _); contradiction]).
  all: apply String.eqb_neq in Et; split;
    [ intros H; repeat split; try reflexivity; try discriminate; eauto
    | intros (_ & _ & _ & t & [= <-] & _ & H); exact H ].
Qed.

(** X22: the errors are consulted in the order sessions, history, gateway
    status, and a sessions error that is not null hides the other two,
    an empty one included: with an empty sessions error the answer is no,
    whatever the other errors say. *)
Theorem sessions_error_hides_the_others (i : UseChatErrorStateInput) text :
  sessionsError i = Some text ->
  (forall h g,
      shouldRedirectToConnect isMissingGatewayAuth i =
      shouldRedirectToConnect isMissingGatewayAuth
        (mkChatErrorState (isRedirecting i) (shouldRedirectToNew i)
           (sessionsReady i) (activeExists i) (Some text) h g))
  /\ (text = "" -> shouldRedirectToConnect isMissingGatewayAuth i = false).
Proof.
  intros Hs. unfold shouldRedirectToConnect. cbv zeta.
  cbn [isRedirecting shouldRedirectToNew sessionsReady activeExists
       sessionsError historyError gatewayStatusError].
  rewrite Hs. cbn [nullish]. split; [reflexivity|].
  intros ->. cbn [String.eqb].
  destruct (isRedirecting i || shouldRedirectToNew i); [reflexivity|].
  now destruct (sessionsReady i && negb (activeExists i)).
Qed.

End RedirectFacts.

(* ================================================================== *)
(** ** The target of [init], and the reach of [--force] *)

Section TargetMore.

Variable spawn : SpawnCall -> node -> SpawnResult * node.
Variable mkdtemp_suffix : node -> string.
Variable env : Env.

Lemma find_indexed_some f l i x :
  find_indexed f l i = Some x ->
  exists k, nth_error l k = Some x /\ f x (i + Z.of_nat k)%Z = true.
Proof.
  revert i; induction l as [|y l IH]; intros i; simpl; [discriminate|].
  destruct (f y i) eqn:E.
  - intros [= <-]. exists 0. split; [reflexivity|]. now rewrite Z.add_0_r.
  - intros H. destruct (IH _ H) as (k & Hk & Hf). exists (S k).
    split; [exact Hk|].
    now replace (i + Z.of_nat (S k))%Z with (i + 1 + Z.of_nat k)%Z by lia.
Qed.

Lemma nth_error_two {A} (l : list A) k a b :
  nth_error l k = Some a -> nth_error l (S k) = Some b ->
  exists pre post, l = pre ++ a :: b :: post.
Proof.
  revert l; induction k as [|k IH]; intros [|x l]; simpl; try discriminate.
  - intros [= ->]. destruct l as [|y l]; simpl; [discriminate|].
    intros [= ->]. exists [], l. reflexivity.
  - intros Ha Hb. destruct (IH l Ha Hb) as (pre & post & ->).
    exists (x :: pre), post. reflexivity.
Qed.

(** X23: whatever the command line, a target that [init] takes from it is
    a token that does not start with [-] and stands right after an [init]
    token; so a directory whose name starts with [-] is never the
    target. *)
Theorem initTarget_sound args dir :
  initTarget args = Some dir ->
  startsWithDash dir = false
  /\ exists pre post, args = pre ++ "init" :: dir :: post.
Proof.
  unfold initTarget. intros H.
  apply find_indexed_some in H as (k & Hk & Hf).
  destruct (startsWithDash dir); [discriminate|]. split; [reflexivity|].
  rewrite Z.add_0_l in Hf. unfold at_index in Hf.
  destruct (Z.ltb_spec (Z.of_nat k - 1) 0) as [_|Hge]; [discriminate|].
  destruct (nth_error args (Z.to_nat (Z.of_nat k - 1))) as [previous|] eqn:Hp;
    [|discriminate].
  apply String.eqb_eq in Hf. subst previous.
  destruct k as [|k]; [lia|].
  replace (Z.to_nat (Z.of_nat (S k) - 1)) with k in Hp by lia.
  exact (nth_error_two args k "init" dir Hp Hk).
Qed.

Lemma lookup_entry_filter_other n m es :
  String.eqb n m = false ->
  Fs.lookup_entry n (filter (fun e : string * node => String.eqb (fst e) m) es)
  = None.
Proof.
  intros Hnm. induction es as [|[k c] es IH]; simpl; [reflexivity|].
  destruct (String.eqb k m) eqn:Ekm; [|exact IH].
  simpl. destruct (String.eqb k n) eqn:Ekn; [|exact IH].
  apply String.eqb_eq in Ekm, Ekn. subst. now rewrite String.eqb_refl in Hnm.
Qed.

(** X24: the refusal to clear the current working directory covers that
    directory only.  With [--force], a target that is a proper ancestor of
    the current working directory is cleared like any other: unless the
    way down from the target starts with [.git], the current working
    directory is gone before the materialisation step. *)
Theorem init_force_on_ancestor_removes_cwd
        fuel rawTarget options w es name rest :
  let targetDir := path_resolve (cwd env) (orDot rawTarget) in
  let t := cleared targetDir (map fst es) (fs w) in
  has "--force" options = true ->
  cwd env = targetDir ++ name :: rest ->
  String.eqb name ".git" = false ->
  Fs.lookup targetDir (fs w) = Some (Dir es) ->
  only_ignored es = false ->
  initProject spawn mkdtemp_suffix env fuel rawTarget options w
  = (materialize spawn mkdtemp_suffix env fuel targetDir false ;;;
     report env targetDir) (set_fs t w)
  /\ Fs.lookup (cwd env) t = None.
Proof.
  intros targetDir t Hforce Hcwd Hname Hdir Hne.
  assert (Hcur : path_eqb targetDir (cwd env) = false).
  { destruct (path_eqb targetDir (cwd env)) eqn:E; [|reflexivity].
    apply path_eqb_eq in E. rewrite Hcwd in E.
    apply (f_equal (@length string)) in E. rewrite length_app in E.
    simpl in E. lia. }
  split.
  - unfold initProject. cbv zeta. fold targetDir. rewrite Hforce, Hcur.
    rewrite (bind_Ret _ _ _ _ _ (ensureDir_present _ _ _ Hdir)).
    rewrite (bind_Ret _ _ _ _ _ (refuseNonEmpty_force _ _)).
    erewrite bind_Ret
      by (rewrite (refuseCurrentDir_dir _ _ _ _ Hdir), andb_false_r;
          reflexivity).
    now rewrite (bind_Ret _ _ _ _ _ (clearTarget_runs _ _ _ Hdir Hne)).
  - rewrite Hcwd, lookup_app. unfold t. rewrite (cleared_all _ _ _ Hdir).
    cbn [Fs.lookup]. now rewrite (lookup_entry_filter_other _ _ _ Hname).
Qed.

End TargetMore.

(* ================================================================== *)
(** ** The further statements at concrete inputs *)

Section MoreWitnesses.

Import Example.

Lemma main_help_wins_witness :
  main children suffix env 0 ["init"; "--force"; "-h"] used
  = (Ret tt, mkWorld (fs used) (stdout (snd (printHelp used))) [] []).
Proof.
  apply (main_help_wins children suffix env 0 ["init"; "--force"; "-h"] used).
  left. simpl. tauto.
Defined.

Lemma main_unknown_command_witness :
  fst (main children suffix env 0 ["deploy"] fresh) = Exit 1%Z
  /\ stderr (snd (main children suffix env 0 ["deploy"] fresh))
     = [("Unknown command: deploy" ++ nl ++ nl)%string].
Proof.
  rewrite (main_unknown_command children suffix env 0 ["deploy"] "deploy" fresh
             eq_refl ltac:(discriminate) ltac:(discriminate)
             ltac:(discriminate) eq_refl
             ltac:(intros [H|[]]; discriminate)
             ltac:(intros [H|[]]; discriminate)).
  split; reflexivity.
Defined.

Lemma main_without_command_inits_cwd_witness :
  main children suffix env 0 ["--force"] used
  = initProject children suffix env 0 (Some ".") ["--force"] used.
Proof.
  exact (proj1 (main_without_command_inits_cwd children suffix env 0
                  ["--force"] used (or_introl eq_refl)
                  ltac:(intros [H|[]]; discriminate)
                  ltac:(intros [H|[]]; discriminate) eq_refl)).
Defined.

Lemma init_dir_directly_after_init_witness :
  initTarget ["init"; "proj"; "--force"] = Some "proj"
  /\ main children suffix env 1 ["init"; "proj"; "--force"] used
     = initProject children suffix env 1 (Some "proj") ["--force"] used.
Proof.
  exact (init_dir_directly_after_init children suffix env 1 [] "proj"
           ["--force"] used eq_refl eq_refl
           ltac:(intros [H|[H|[H|[]]]]; discriminate)
           ltac:(intros [H|[H|[H|[]]]]; discriminate)).
Defined.

Lemma forwarded_runs_one_script_witness :
  spawned (snd (main failing suffix projEnv 0 ["lint"] used))
  = [mkCall "pnpm" ["run"; "lint"] ["home"; "proj"]].
Proof.
  destruct (forwarded_runs_one_script failing suffix projEnv 0 ["lint"] "lint"
              used (mkDetected single ["home"; "proj"]) eq_refl eq_refl
              ltac:(intros [H|[]]; discriminate)
              ltac:(intros [H|[]]; discriminate) eq_refl)
    as (c & _ & _ & _ & _).
  reflexivity.
Defined.

Lemma forwarded_signal_exits_0_witness :
  exit_status (fst (main killed suffix projEnv 0 ["test"] used)) = Some 0%Z.
Proof.
  exact (proj2 (forwarded_signal_exits_0 killed suffix projEnv 0 ["test"] "test"
                  used (mkCall "pnpm" ["run"; "test"] ["home"; "proj"])
                  eq_refl eq_refl
                  ltac:(intros [H|[]]; discriminate)
                  ltac:(intros [H|[]]; discriminate) eq_refl eq_refl)).
Defined.

Lemma forwarded_spawn_error_throws_witness :
  fst (main absent suffix projEnv 0 ["build"] used)
  = Throw (SpawnError "spawn ENOENT").
Proof.
  exact (proj1 (forwarded_spawn_error_throws absent suffix projEnv 0 ["build"]
                  "build" used (mkCall "pnpm" ["run"; "build"] ["home"; "proj"])
                  "spawn ENOENT" eq_refl eq_refl
                  ltac:(intros [H|[]]; discriminate)
                  ltac:(intros [H|[]]; discriminate) eq_refl eq_refl)).
Defined.

Lemma workspace_script_runs_in_app_dir_witness :
  runProjectScript failing env "dev" workspace
  = runCommand failing "yarn" ["run"; "dev"] ["home"; "u"; "apps"; "webclaw"]
      workspace.
Proof.
  exact (workspace_script_runs_in_app_dir failing env "dev" workspace
           eq_refl eq_refl).
Defined.

Lemma init_on_regular_file_throws_witness :
  initProject children suffix env 1 (Some "notes.txt") ["--force"] used
  = (Throw ENOTDIR, used).
Proof.
  exact (init_on_regular_file_throws children suffix env 1 (Some "notes.txt")
           ["--force"] used "keep me" eq_refl).
Defined.

Lemma ensureDir_ensures_witness :
  Fs.lookup ["home"; "u"; "a"; "b"]
    (fs (snd (ensureDir ["home"; "u"; "a"; "b"] fresh)))
  = Some (Dir []).
Proof.
  exact (proj1 (proj2
    (ensureDir_ensures ["home"; "u"; "a"; "b"] fresh
       (snd (ensureDir ["home"; "u"; "a"; "b"] fresh)) eq_refl)) eq_refl).
Defined.

Lemma init_direct_clone_failure_witness :
  fst (initProject failing suffix env 1 (Some "proj") [] fresh) = Exit 3%Z
  /\ stdout (snd (initProject failing suffix env 1 (Some "proj") [] fresh)) = [].
Proof.
  rewrite (init_direct_clone_failure failing suffix env 1 (Some "proj") []
             fresh made [] 3%Z eq_refl eq_refl eq_refl eq_refl eq_refl
             ltac:(discriminate)).
  split; reflexivity.
Defined.

Lemma init_staged_clone_failure_witness :
  fst (initProject failing suffix env 3 None [] fresh) = Exit 3%Z
  /\ Fs.lookup ["tmp"; "webclaw-Ab12Cd"]
       (fs (snd (initProject failing suffix env 3 None [] fresh)))
     = Some (Dir []).
Proof.
  destruct (init_staged_clone_failure failing suffix env 3 None [] fresh
              [] [] staging 3%Z eq_refl eq_refl eq_refl eq_refl eq_refl
              eq_refl eq_refl ltac:(discriminate)) as [H _].
  rewrite H. split; reflexivity.
Defined.

Lemma init_missing_target_is_created_witness :
  Fs.lookup ["home"; "u"; "proj"] (fs made) = Some (Dir [])
  /\ fst (initProject children suffix env 1 (Some "proj") [] fresh) = Ret tt.
Proof.
  destruct (init_missing_target_is_created children suffix env 1 (Some "proj")
              [] fresh (fs made) cloned eq_refl eq_refl eq_refl eq_refl)
    as [H1 H2].
  split; [exact H1|]. now rewrite H2.
Defined.

Lemma init_force_empties_then_clones_witness :
  Fs.lookup ["home"; "old"]
    (fs (snd (initProject children suffix env 1 (Some "../old") ["--force"]
                cluttered)))
  = Some (Dir template).
Proof.
  destruct (init_force_empties_then_clones children suffix env 1
              (Some "../old") ["--force"] cluttered
              [("a.txt", File "a"); ("sub", Dir [("b.txt", File "b")])]
              (Dir [("home", Dir [("u", Dir []); ("old", Dir template)]);
                    ("tmp", Dir [])])
              eq_refl eq_refl eq_refl eq_refl eq_refl eq_refl) as [_ H].
  now rewrite H.
Defined.

Lemma init_writes_stay_local_witness :
  Fs.lookup ["home"; "proj"]
    (fs (snd (initProject children suffix env 3 None ["--force"] used)))
  = Fs.lookup ["home"; "proj"] (fs used).
Proof.
  destruct (init_writes_stay_local children suffix env 3 None ["--force"] used
              (fst (initProject children suffix env 3 None ["--force"] used))
              (snd (initProject children suffix env 3 None ["--force"] used))
              ["home"; "proj"] eq_refl eq_refl eq_refl) as [H | _].
  - exact H.
  - reflexivity.
Defined.

Lemma init_starts_at_most_one_clone_witness :
  length (spawned (snd (initProject children suffix env 3 None [] fresh))) <= 1.
Proof.
  destruct (init_starts_at_most_one_clone children suffix env 3 None [] fresh
              (fst (initProject children suffix env 3 None [] fresh))
              (snd (initProject children suffix env 3 None [] fresh))
              eq_refl) as [H | [dst H]];
    rewrite H; simpl; repeat constructor.
Defined.

Lemma init_reports_iff_returns_witness :
  stdout (snd (initProject children suffix env 0 (Some ".") [] used)) = [].
Proof.
  destruct (init_reports_iff_returns children suffix env 0 (Some ".") [] used
              (fst (initProject children suffix env 0 (Some ".") [] used))
              (snd (initProject children suffix env 0 (Some ".") [] used))
              eq_refl) as [[H _] | [_ H]].
  - discriminate H.
  - exact H.
Defined.

Lemma copyDir_copies_pruned_tree_witness :
  exists t',
    copyDir 3 ["tmp"; "webclaw-Ab12Cd"; "repo"] ["home"; "u"]
      (mkWorld staged [] [] [])
    = (Ret tt, mkWorld t' [] [] [])
    /\ Fs.lookup ["home"; "u"] t'
       = Some (Dir [("package.json", File "{}");
                    ("src", Dir [("main.ts", File "export {}")])]).
Proof.
  destruct (copyDir_copies_pruned_tree 3 ["tmp"; "webclaw-Ab12Cd"; "repo"]
              ["home"; "u"] (mkWorld staged [] [] []) template []
              (le_n 3) eq_refl eq_refl eq_refl eq_refl eq_refl)
    as (t' & H1 & H2 & _).
  exists t'. split; [exact H1 | exact H2].
Defined.


Lemma sessions_error_hides_the_others_witness :
  shouldRedirectToConnect authMissing
    (mkChatErrorState false false true true (Some "")
       (Some "missing gateway auth") None)
  = false.
Proof.
  exact (proj2 (sessions_error_hides_the_others authMissing
                  (mkChatErrorState false false true true (Some "")
                     (Some "missing gateway auth") None) "" eq_refl) eq_refl).
Defined.

Lemma initTarget_sound_witness :
  startsWithDash "proj" = false
  /\ exists pre post,
      ["--force"; "init"; "proj"] = pre ++ "init" :: "proj" :: post.
Proof.
  exact (initTarget_sound ["--force"; "init"; "proj"] "proj" eq_refl).
Defined.

Lemma init_force_on_ancestor_removes_cwd_witness :
  Fs.lookup ["home"; "u"]
    (cleared ["home"] ["u"; "proj"] (fs used)) = None.
Proof.
  exact (proj2
    (init_force_on_ancestor_removes_cwd children suffix env 1 (Some "..")
       ["--force"] used
       [("u", Dir [("notes.txt", File "keep me"); (".DS_Store", File "")]);
        ("proj", Dir [(".git", Dir [("HEAD", File "ref")]);
                      ("package.json", File "{}");
                      ("pnpm-lock.yaml", File "")])]
       "u" [] eq_refl eq_refl eq_refl eq_refl eq_refl)).
Defined.

End MoreWitnesses.
